(** * The network actor of the Boundless P2P layer

    The repository patches [p2p/src/network.rs] with four scripts.  The Rust
    text they install is what is embedded here:

    - [update_network.py]: [NetworkNode::run] (the [tokio::select!] loop) and
      [NetworkNode::handle_command];
    - [update_message_handling.py]: the gossipsub arm of
      [handle_swarm_event], which turns a decoded [Message] into
      [NetworkEvent]s;
    - [update_network_new.py]: the fields of the actor built by
      [NetworkNode::new].

    Handlers run in a small state-and-trace monad: the state is the actor, the
    trace records every publish, every send on the event channel and every log
    line, in program order. *)

From Stdlib Require Import List String Bool Arith Lia.
From Stdlib Require Import Strings.Byte.
Import ListNotations.
Open Scope string_scope.
Open Scope list_scope.

Set Implicit Arguments.

(** ** Plain data *)

(** [Vec<u8>] *)
Definition Bytes := list byte.

(** A gossipsub topic, identified by its name. *)
Definition Topic := string.

(** Rust's [Result<T, E>]. *)
Inductive Result (T E : Type) : Type :=
| Ok (t : T)
| Err (e : E).
Arguments Ok {T E} t.
Arguments Err {T E} e.

(** The value types the actor only moves around: they are declared in other
    crates (block, transaction, hash), in libp2p (peer identity, swarm, message
    id, publish error), or in the codec (its error types). *)
Class Types := {
  Block : Type;
  Transaction : Type;
  Hash : Type;
  PeerId : Type;
  Height : Type;
  Count : Type;
  Nonce : Type;
  (** the fields of [Message::Status] that the pattern's [..] skips *)
  StatusRest : Type;
  Swarm : Type;
  PeerTable : Type;
  MessageId : Type;
  PublishError : Type;
  EncodeError : Type;
  DecodeError : Type;
  (** every [SwarmEvent] other than an inbound gossipsub message *)
  OtherSwarmEvent : Type
}.

Section Network.

Context {T : Types}.

(** ** The three tagged unions *)

(** The wire message, with the eight variants and the fields that the match of
    [update_message_handling.py] (lines 41-88) destructures. *)
Inductive Message : Type :=
| NewBlock (block : Block)
| NewTransaction (transaction : Transaction)
| Status (height : Height) (best_block_hash : Hash) (rest : StatusRest)
| GetBlocks (start_height : Height) (count : Count)
| Blocks (blocks : list Block)
| GetStatus
| Ping (nonce : Nonce)
| Pong (nonce : Nonce).

(** [NetworkCommand], as matched by [handle_command]. *)
Inductive NetworkCommand : Type :=
| BroadcastBlock (block : Block)
| BroadcastTransaction (tx : Transaction)
| SendStatus (peer_id : PeerId) (height : Height) (best_hash : Hash)
| RequestBlocks (peer_id : PeerId) (start_height : Height) (count : Count).

(** [NetworkEvent], as built by the inbound handler. *)
Inductive NetworkEvent : Type :=
| BlockReceived (peer_id : PeerId) (block : Block)
| TransactionReceived (peer_id : PeerId) (transaction : Transaction)
| StatusReceived (peer_id : PeerId) (height : Height) (best_hash : Hash)
| BlocksRequested (peer_id : PeerId) (start_height : Height) (count : Count).

(** The transport events the loop receives from the swarm. *)
Inductive SwarmEvent : Type :=
| GossipsubMessage (propagation_source : PeerId) (message_id : MessageId)
                   (data : Bytes)
| OtherEvent (ev : OtherSwarmEvent).

(** ** Struct literals

    [handle_command] builds its messages with struct literals
    ([Message::GetBlocks { start_height, count }]).  A literal is kept as the
    source writes it: the variant and the initialised fields, by name. *)

Inductive FieldVal : Type :=
| VBlock (b : Block)
| VTransaction (t : Transaction)
| VHeight (h : Height)
| VHash (h : Hash)
| VCount (c : Count)
| VNonce (n : Nonce)
| VBlocks (bs : list Block).

Record MessageLit : Type := Lit {
  lit_variant : string;
  lit_fields : list (string * FieldVal)
}.

Definition field_names (l : MessageLit) : list string :=
  map fst (lit_fields l).

Fixpoint field (name : string) (fs : list (string * FieldVal))
  : option FieldVal :=
  match fs with
  | [] => None
  | (n, v) :: fs' => if String.eqb n name then Some v else field name fs'
  end.

Definition mem (s : string) (l : list string) : bool :=
  existsb (String.eqb s) l.

Fixpoint nodupb (l : list string) : bool :=
  match l with
  | [] => true
  | s :: l' => negb (mem s l') && nodupb l'
  end.

(** Rust accepts a struct literal when it initialises every declared field,
    names no other field, and names none twice. *)
Definition literal_accepted (declared written : list string) : bool :=
  forallb (fun d => mem d written) declared
  && forallb (fun w => mem w declared) written
  && nodupb written.

(** Rust accepts a struct pattern that ends in [..] when every field it names
    is declared and none is named twice. *)
Definition pattern_accepted (declared named : list string) : bool :=
  forallb (fun n => mem n declared) named && nodupb named.

(** The two places that spell out the fields of [Message::Status]:
    the literal of the [SendStatus] arm ([update_network.py], line 63) and the
    pattern of the inbound handler ([update_message_handling.py], line 54). *)
Definition status_literal_fields : list string := ["height"; "best_hash"].
Definition status_pattern_fields : list string := ["height"; "best_block_hash"].

(** Modelled from the spec: the declaration of [enum Message] (in the protocol
    module of the p2p crate, which is not among the sources).  The variants and
    field names are those of the data model; [Status] has further fields, the
    names of which are a parameter. *)
Definition declared_fields (status_rest_names : list string) (variant : string)
  : option (list string) :=
  if String.eqb variant "NewBlock" then Some ["block"]
  else if String.eqb variant "NewTransaction" then Some ["transaction"]
  else if String.eqb variant "Status"
       then Some ("height" :: "best_block_hash" :: status_rest_names)
  else if String.eqb variant "GetBlocks" then Some ["start_height"; "count"]
  else if String.eqb variant "Blocks" then Some ["blocks"]
  else if String.eqb variant "GetStatus" then Some []
  else if String.eqb variant "Ping" then Some ["nonce"]
  else if String.eqb variant "Pong" then Some ["nonce"]
  else None.

Variable status_rest_names : list string.
Variable status_rest_of : list (string * FieldVal) -> option StatusRest.

Definition literal_ok (l : MessageLit) : bool :=
  match declared_fields status_rest_names (lit_variant l) with
  | Some declared => literal_accepted declared (field_names l)
  | None => false
  end.

(** The [Message] a literal denotes, when the declaration accepts it. *)
Definition elaborate (l : MessageLit) : option Message :=
  if negb (literal_ok l) then None else
  let fs := lit_fields l in
  let v := lit_variant l in
  if String.eqb v "NewBlock" then
    match field "block" fs with
    | Some (VBlock b) => Some (NewBlock b)
    | _ => None
    end
  else if String.eqb v "NewTransaction" then
    match field "transaction" fs with
    | Some (VTransaction t) => Some (NewTransaction t)
    | _ => None
    end
  else if String.eqb v "Status" then
    match field "height" fs, field "best_block_hash" fs, status_rest_of fs with
    | Some (VHeight h), Some (VHash bh), Some r => Some (Status h bh r)
    | _, _, _ => None
    end
  else if String.eqb v "GetBlocks" then
    match field "start_height" fs, field "count" fs with
    | Some (VHeight s), Some (VCount c) => Some (GetBlocks s c)
    | _, _ => None
    end
  else if String.eqb v "Blocks" then
    match field "blocks" fs with
    | Some (VBlocks bs) => Some (Blocks bs)
    | _ => None
    end
  else if String.eqb v "GetStatus" then Some GetStatus
  else if String.eqb v "Ping" then
    match field "nonce" fs with
    | Some (VNonce n) => Some (Ping n)
    | _ => None
    end
  else if String.eqb v "Pong" then
    match field "nonce" fs with
    | Some (VNonce n) => Some (Pong n)
    | _ => None
    end
  else None.

(** ** The actor and its effects *)

(** The unbounded event channel, seen from the sender [event_tx]: what has been
    queued for the receiver, and whether the receiver still exists. *)
Record EventChannel : Type := {
  buffer : list NetworkEvent;
  receiver_alive : bool
}.

(** [UnboundedSender::send]: queues the value, or fails when the receiver is
    gone. *)
Definition channel_send (ev : NetworkEvent) (ch : EventChannel)
  : Result unit NetworkEvent * EventChannel :=
  if receiver_alive ch
  then (Ok tt, {| buffer := buffer ch ++ [ev]; receiver_alive := true |})
  else (Err ev, ch).

(** The fields of [Self] ([update_network_new.py], lines 29-35). *)
Record NetworkNode : Type := {
  swarm : Swarm;
  peers : PeerTable;
  event_tx : EventChannel;
  blocks_topic : Topic;
  transactions_topic : Topic
}.

Definition with_swarm (self : NetworkNode) (sw : Swarm) : NetworkNode :=
  {| swarm := sw; peers := peers self; event_tx := event_tx self;
     blocks_topic := blocks_topic self;
     transactions_topic := transactions_topic self |}.

Definition with_event_tx (self : NetworkNode) (ch : EventChannel)
  : NetworkNode :=
  {| swarm := swarm self; peers := peers self; event_tx := ch;
     blocks_topic := blocks_topic self;
     transactions_topic := transactions_topic self |}.

Inductive Level : Type := INFO | WARN.

(** The log lines of the two handlers, one constructor per format string. *)
Inductive LogMsg : Type :=
| StartingEventLoop
| FailedToBroadcastBlock (e : PublishError)
| BroadcastedBlock (height : Height)
| FailedToBroadcastTransaction (e : PublishError)
| FailedToSendStatus (e : PublishError)
| FailedToRequestBlocks (e : PublishError)
| ReceivedFrom (message_type : string) (peer_id : PeerId)
| ReceivedGetStatus (peer_id : PeerId)
| ReceivedPing (peer_id : PeerId) (nonce : Nonce)
| ReceivedPong (peer_id : PeerId) (nonce : Nonce)
| FailedToDeserialize (peer_id : PeerId) (e : DecodeError).

(** What a handler does to the outside, in program order. *)
Inductive Effect : Type :=
| Published (topic : Topic) (data : Bytes)
            (result : Result MessageId PublishError)
| Sent (event : NetworkEvent) (result : Result unit NetworkEvent)
| Logged (level : Level) (msg : LogMsg).

Definition M (A : Type) : Type := NetworkNode -> A * NetworkNode * list Effect.

Definition ret {A} (a : A) : M A := fun self => (a, self, []).

Definition bind {A B} (m : M A) (k : A -> M B) : M B :=
  fun self =>
    let '(a, self1, t1) := m self in
    let '(b, self2, t2) := k a self1 in
    (b, self2, t1 ++ t2).

Notation "x <- m ;; k" := (bind m (fun x => k))
  (at level 61, m at next level, right associativity).
Notation "m ;; k" := (bind m (fun _ => k))
  (at level 61, right associativity).

Definition info (msg : LogMsg) : M unit :=
  fun self => (tt, self, [Logged INFO msg]).

Definition warn (msg : LogMsg) : M unit :=
  fun self => (tt, self, [Logged WARN msg]).

(** [self.event_tx.send(ev)] *)
Definition event_tx_send (ev : NetworkEvent) : M (Result unit NetworkEvent) :=
  fun self =>
    let '(r, ch) := channel_send ev (event_tx self) in
    (r, with_event_tx self ch, [Sent ev r]).

Fixpoint for_each {A} (l : list A) (body : A -> M unit) : M unit :=
  match l with
  | [] => ret tt
  | a :: l' => body a ;; for_each l' body
  end.

(** ** What the rest of the crate and libp2p provide *)

(** [Message::to_bytes], applied to the literal the handler has just built. *)
Variable to_bytes : MessageLit -> Result Bytes EncodeError.
(** [Message::from_bytes] *)
Variable from_bytes : Bytes -> Result Message DecodeError.
(** [Message::message_type] *)
Variable message_type : Message -> string.
(** [block.header.height] *)
Variable block_height : Block -> Height.
(** [gossipsub::Behaviour::publish] *)
Variable gossipsub_publish :
  Swarm -> Topic -> Bytes -> Result MessageId PublishError * Swarm.
(** One poll of [self.swarm.select_next_some()]: the next transport event, or
    [None] while none is ready.  The swarm's stream does not end. *)
Variable poll_next_event : Swarm -> option (SwarmEvent * Swarm).
(** The arms of [handle_swarm_event] for the other transport events. *)
Variable handle_other_event : OtherSwarmEvent -> M unit.

(** [self.swarm.behaviour_mut().gossipsub.publish(self.<topic>.clone(), data)] *)
Definition publish (topic : NetworkNode -> Topic) (data : Bytes)
  : M (Result MessageId PublishError) :=
  fun self =>
    let '(r, sw) := gossipsub_publish (swarm self) (topic self) data in
    (r, with_swarm self sw, [Published (topic self) data r]).

(** ** [handle_command] ([update_network.py], lines 34-86) *)

Definition handle_command (command : NetworkCommand) : M unit :=
  match command with
  | BroadcastBlock block =>
      let message := Lit "NewBlock" [("block", VBlock block)] in
      match to_bytes message with
      | Ok data =>
          r <- publish blocks_topic data ;;
          match r with
          | Err e => warn (FailedToBroadcastBlock e)
          | Ok _ => info (BroadcastedBlock (block_height block))
          end
      | Err _ => ret tt
      end
  | BroadcastTransaction tx =>
      let message := Lit "NewTransaction" [("transaction", VTransaction tx)] in
      match to_bytes message with
      | Ok data =>
          r <- publish transactions_topic data ;;
          match r with
          | Err e => warn (FailedToBroadcastTransaction e)
          | Ok _ => ret tt
          end
      | Err _ => ret tt
      end
  | SendStatus peer_id height best_hash =>
      let message :=
        Lit "Status" [("height", VHeight height); ("best_hash", VHash best_hash)] in
      match to_bytes message with
      | Ok data =>
          r <- publish blocks_topic data ;;
          match r with
          | Err e => warn (FailedToSendStatus e)
          | Ok _ => ret tt
          end
      | Err _ => ret tt
      end
  | RequestBlocks peer_id start_height count =>
      let message :=
        Lit "GetBlocks"
            [("start_height", VHeight start_height); ("count", VCount count)] in
      match to_bytes message with
      | Ok data =>
          r <- publish blocks_topic data ;;
          match r with
          | Err e => warn (FailedToRequestBlocks e)
          | Ok _ => ret tt
          end
      | Err _ => ret tt
      end
  end.

(** ** [handle_swarm_event]

    The gossipsub arm is that of [update_message_handling.py], lines 28-94. *)

Definition handle_swarm_event (event : SwarmEvent) : M unit :=
  match event with
  | GossipsubMessage peer_id message_id data =>
      match from_bytes data with
      | Ok msg =>
          info (ReceivedFrom (message_type msg) peer_id) ;;
          match msg with
          | NewBlock block =>
              event_tx_send (BlockReceived peer_id block) ;; ret tt
          | NewTransaction transaction =>
              event_tx_send (TransactionReceived peer_id transaction) ;; ret tt
          | Status height best_block_hash _ =>
              event_tx_send (StatusReceived peer_id height best_block_hash) ;;
              ret tt
          | GetBlocks start_height count =>
              event_tx_send (BlocksRequested peer_id start_height count) ;;
              ret tt
          | Blocks blocks =>
              for_each blocks (fun block =>
                event_tx_send (BlockReceived peer_id block) ;; ret tt)
          | GetStatus => info (ReceivedGetStatus peer_id)
          | Ping nonce => info (ReceivedPing peer_id nonce)
          | Pong nonce => info (ReceivedPong peer_id nonce)
          end
      | Err e => warn (FailedToDeserialize peer_id e)
      end
  | OtherEvent ev => handle_other_event ev
  end.

(** ** Reading a trace *)

Definition sent_event (e : Effect) : option NetworkEvent :=
  match e with Sent ev _ => Some ev | _ => None end.

Definition published (e : Effect)
  : option (Topic * Bytes * Result MessageId PublishError) :=
  match e with Published t d r => Some (t, d, r) | _ => None end.

Fixpoint filter_map {A B} (f : A -> option B) (l : list A) : list B :=
  match l with
  | [] => []
  | a :: l' =>
      match f a with
      | Some b => b :: filter_map f l'
      | None => filter_map f l'
      end
  end.

(** The events a trace sends on the event channel, in order. *)
Definition events_of (t : list Effect) : list NetworkEvent :=
  filter_map sent_event t.

(** The publish attempts of a trace, in order. *)
Definition publishes_of (t : list Effect)
  : list (Topic * Bytes * Result MessageId PublishError) :=
  filter_map published t.

Definition trace_of {A} (r : A * NetworkNode * list Effect) : list Effect :=
  snd r.

Definition node_of {A} (r : A * NetworkNode * list Effect) : NetworkNode :=
  snd (fst r).

(** ** The run loop ([update_network.py], lines 14-32) *)

(** The command channel, seen from the receiver [command_rx]: the commands
    queued and not yet received, and how many senders (handles) are left. *)
Record CommandRx : Type := {
  queued : list NetworkCommand;
  senders : nat
}.

Inductive Poll (A : Type) : Type :=
| Ready (a : A)
| Pending.
Arguments Ready {A} a.
Arguments Pending {A}.

(** One poll of [command_rx.recv()]: the oldest queued command; [None] once
    the queue is empty and every sender has been dropped; not ready
    otherwise. *)
Definition poll_recv (rx : CommandRx)
  : Poll (option NetworkCommand * CommandRx) :=
  match queued rx with
  | c :: rest => Ready (Some c, {| queued := rest; senders := senders rx |})
  | [] => if Nat.eqb (senders rx) 0 then Ready (None, rx) else Pending
  end.

(** A branch of [tokio::select!] after its future has been polled: the value
    matches the branch's pattern; the future is ready with a value the pattern
    refuses, which disables the branch; or the future is not ready. *)
Inductive Branch (A : Type) : Type :=
| Matched (a : A)
| Disabled
| NotReady.
Arguments Matched {A} a.
Arguments Disabled {A}.
Arguments NotReady {A}.

(** [Some(command) = command_rx.recv()] *)
Definition command_branch (rx : CommandRx)
  : Branch (NetworkCommand * CommandRx) :=
  match poll_recv rx with
  | Ready (Some c, rx') => Matched (c, rx')
  | Ready (None, _) => Disabled
  | Pending => NotReady
  end.

(** [event = self.swarm.select_next_some()]: the pattern is a plain binder,
    which refuses nothing. *)
Definition event_branch (sw : Swarm) : Branch (SwarmEvent * Swarm) :=
  match poll_next_event sw with
  | Some (e, sw') => Matched (e, sw')
  | None => NotReady
  end.

Inductive Selected : Type :=
| TookCommand (c : NetworkCommand) (rx : CommandRx)
| TookEvent (e : SwarmEvent) (sw : Swarm)
| Parked
| NoBranchLeft.

(** [tokio::select!] over the two branches.  The macro polls the branches
    starting from one picked at random ([commands_first]) and runs the first
    that matches.  When none matches it parks the task, unless every branch is
    disabled: then it runs the [else] branch, and panics if there is none. *)
Definition select (commands_first : bool) (rx : CommandRx) (sw : Swarm)
  : Selected :=
  match command_branch rx, event_branch sw with
  | Matched (c, rx'), Matched (e, sw') =>
      if commands_first then TookCommand c rx' else TookEvent e sw'
  | Matched (c, rx'), _ => TookCommand c rx'
  | _, Matched (e, sw') => TookEvent e sw'
  | Disabled, Disabled => NoBranchLeft
  | _, _ => Parked
  end.

(** What [run] owns: [self] and [command_rx]. *)
Record World : Type := {
  node : NetworkNode;
  command_rx : CommandRx
}.

(** Where [run] is: still inside [loop], returned to its caller, or unwound
    by a panic; with the trace so far. *)
Inductive Outcome : Type :=
| Looping (w : World) (trace : list Effect)
| Returned (trace : list Effect)
| Panicked (trace : list Effect).

Definition after (t : list Effect) (o : Outcome) : Outcome :=
  match o with
  | Looping w t' => Looping w (t ++ t')
  | Returned t' => Returned (t ++ t')
  | Panicked t' => Panicked (t ++ t')
  end.

(** One pass through the body of [loop]. *)
Definition iteration (commands_first : bool) (w : World) : Outcome :=
  match select commands_first (command_rx w) (swarm (node w)) with
  | TookCommand command rx' =>
      let '(_, self', t) := handle_command command (node w) in
      Looping {| node := self'; command_rx := rx' |} t
  | TookEvent event sw' =>
      let '(_, self', t) :=
        handle_swarm_event event (with_swarm (node w) sw') in
      Looping {| node := self'; command_rx := command_rx w |} t
  | Parked => Looping w []
  | NoBranchLeft => Panicked []
  end.

(** What the rest of the process and the network do between two passes. *)
Inductive EnvAction : Type :=
| Idle
| HandleSend (c : NetworkCommand)
| HandleClone
| HandleDrop
| ReceiverDrop
| Network (f : Swarm -> Swarm).

Definition env_step (a : EnvAction) (w : World) : World :=
  let rx := command_rx w in
  match a with
  | Idle => w
  | HandleSend c =>
      if Nat.eqb (senders rx) 0 then w
      else {| node := node w;
              command_rx := {| queued := queued rx ++ [c];
                               senders := senders rx |} |}
  | HandleClone =>
      if Nat.eqb (senders rx) 0 then w
      else {| node := node w;
              command_rx := {| queued := queued rx;
                               senders := S (senders rx) |} |}
  | HandleDrop =>
      {| node := node w;
         command_rx := {| queued := queued rx;
                          senders := pred (senders rx) |} |}
  | ReceiverDrop =>
      {| node := with_event_tx (node w)
                   {| buffer := buffer (event_tx (node w));
                      receiver_alive := false |};
         command_rx := rx |}
  | Network f =>
      {| node := with_swarm (node w) (f (swarm (node w)));
         command_rx := rx |}
  end.

Record Tick : Type := {
  before : EnvAction;
  commands_first : bool
}.

(** [loop { ... }], for as many passes as the schedule is long.  The body has
    no [break] and no [return]. *)
Fixpoint loop (sched : list Tick) (w : World) : Outcome :=
  match sched with
  | [] => Looping w []
  | t :: sched' =>
      match iteration (commands_first t) (env_step (before t) w) with
      | Looping w' tr => after tr (loop sched' w')
      | o => o
      end
  end.

(** [NetworkNode::run] *)
Definition run (sched : list Tick) (w : World) : Outcome :=
  after [Logged INFO StartingEventLoop] (loop sched w).

Definition stopped (o : Outcome) : bool :=
  match o with Returned _ => true | _ => false end.

Definition panicked (o : Outcome) : bool :=
  match o with Panicked _ => true | _ => false end.

End Network.

Arguments Ready {A} a.
Arguments Pending {A}.
Arguments Matched {A} a.
Arguments Disabled {A}.
Arguments NotReady {A}.

(** * The wire codec *)

(** A value type that the codec can write to and read back from bytes (the
    role of [Serialize] and [Deserialize]).  [get] reads one value from the
    front of the input and returns what follows it. *)
Class Wire (A : Type) : Type := {
  put : A -> Bytes;
  get : Bytes -> option (A * Bytes)
}.

(** Reading back what was written, whatever follows it. *)
Class WireLaw (A : Type) {W : Wire A} : Prop :=
  get_put : forall (a : A) (rest : Bytes), get (put a ++ rest) = Some (a, rest).
Arguments WireLaw A {W}.

(** The structural errors of decoding. *)
Inductive CodecError : Type :=
| Truncated
| UnknownVariant (tag : byte)
| Malformed (tag : byte)
| TrailingBytes (tag : byte).

Section Codec.

Context {T : Types}.
Context {WBlock : Wire Block} {WTransaction : Wire Transaction}
        {WHash : Wire Hash} {WHeight : Wire Height} {WCount : Wire Count}
        {WNonce : Wire Nonce} {WRest : Wire StatusRest}.

(** An ordered sequence: every element after a byte [01], then a byte [00]. *)
Fixpoint put_seq {A} {W : Wire A} (l : list A) : Bytes :=
  match l with
  | [] => [x00]
  | a :: l' => x01 :: put a ++ put_seq l'
  end.

Fixpoint get_seq {A} {W : Wire A} (fuel : nat) (bs : Bytes)
  : option (list A * Bytes) :=
  match fuel with
  | 0 => None
  | S fuel' =>
      match bs with
      | [] => None
      | b :: rest =>
          if Byte.eqb b x00 then Some ([], rest)
          else if Byte.eqb b x01 then
            match get rest with
            | Some (a, rest') =>
                match get_seq fuel' rest' with
                | Some (l, rest'') => Some (a :: l, rest'')
                | None => None
                end
            | None => None
            end
          else None
      end
  end.

Definition and_then {A B} (r : option (A * Bytes))
    (k : A -> Bytes -> option (B * Bytes)) : option (B * Bytes) :=
  match r with
  | Some (a, rest) => k a rest
  | None => None
  end.

(** Modelled from the spec: [Message::to_bytes] of the Wire Protocol Codec,
    which is not among the sources.  A discriminated tag, one byte per variant
    in the order of the data model, then the fields in order.  It is total and
    a function of the value alone. *)
Definition encode (m : Message) : Bytes :=
  match m with
  | NewBlock block => x00 :: put block
  | NewTransaction transaction => x01 :: put transaction
  | Status height best_block_hash rest =>
      x02 :: put height ++ put best_block_hash ++ put rest
  | GetBlocks start_height count => x03 :: put start_height ++ put count
  | Blocks blocks => x04 :: put_seq blocks
  | GetStatus => [x05]
  | Ping nonce => x06 :: put nonce
  | Pong nonce => x07 :: put nonce
  end.

(** A payload must be read to its last byte. *)
Definition finish (tag : byte) (r : option (Message * Bytes))
  : Result Message CodecError :=
  match r with
  | Some (m, []) => Ok m
  | Some (_, _ :: _) => Err (TrailingBytes tag)
  | None => Err (Malformed tag)
  end.

(** Modelled from the spec: [Message::from_bytes] of the Wire Protocol Codec,
    which is not among the sources.  Empty input, an unknown tag, a payload
    that does not parse and bytes left over each give a structural error. *)
Definition decode (bs : Bytes) : Result Message CodecError :=
  match bs with
  | [] => Err Truncated
  | tag :: payload =>
      if Byte.eqb tag x00 then
        finish tag (and_then (get payload) (fun b r => Some (NewBlock b, r)))
      else if Byte.eqb tag x01 then
        finish tag
          (and_then (get payload) (fun t r => Some (NewTransaction t, r)))
      else if Byte.eqb tag x02 then
        finish tag
          (and_then (get payload) (fun h r1 =>
           and_then (get r1) (fun bh r2 =>
           and_then (get r2) (fun rest r3 => Some (Status h bh rest, r3)))))
      else if Byte.eqb tag x03 then
        finish tag
          (and_then (get payload) (fun s r1 =>
           and_then (get r1) (fun c r2 => Some (GetBlocks s c, r2))))
      else if Byte.eqb tag x04 then
        finish tag
          (and_then (get_seq (S (List.length payload)) payload)
                    (fun bs r => Some (Blocks bs, r)))
      else if Byte.eqb tag x05 then finish tag (Some (GetStatus, payload))
      else if Byte.eqb tag x06 then
        finish tag (and_then (get payload) (fun n r => Some (Ping n, r)))
      else if Byte.eqb tag x07 then
        finish tag (and_then (get payload) (fun n r => Some (Pong n, r)))
      else Err (UnknownVariant tag)
  end.

(** Modelled from the spec: [Message::message_type], which is not among the
    sources; the name of the variant. *)
Definition variant_name (m : Message) : string :=
  match m with
  | NewBlock _ => "NewBlock"
  | NewTransaction _ => "NewTransaction"
  | Status _ _ _ => "Status"
  | GetBlocks _ _ => "GetBlocks"
  | Blocks _ => "Blocks"
  | GetStatus => "GetStatus"
  | Ping _ => "Ping"
  | Pong _ => "Pong"
  end.

End Codec.

(** * A small instance

    Every value type is one byte; the swarm is the list of inbound gossip
    messages not yet delivered; publishing succeeds on the two topics the node
    has joined and fails on any other. *)

Definition byte_wire : Wire byte :=
  {| put := fun b => [b];
     get := fun bs => match bs with b :: rest => Some (b, rest) | [] => None end |}.

Definition unit_wire : Wire unit :=
  {| put := fun _ => []; get := fun bs => Some (tt, bs) |}.

Definition sample_types : Types :=
  {| Block := byte; Transaction := byte; Hash := byte; PeerId := byte;
     Height := byte; Count := byte; Nonce := byte; StatusRest := unit;
     Swarm := list (byte * Bytes); PeerTable := unit; MessageId := unit;
     PublishError := unit; EncodeError := unit; DecodeError := CodecError;
     OtherSwarmEvent := Empty_set |}.

Definition sample_decode : Bytes -> Result (@Message sample_types) CodecError :=
  @decode sample_types byte_wire byte_wire byte_wire byte_wire byte_wire
          byte_wire unit_wire.

Definition sample_encode : @Message sample_types -> Bytes :=
  @encode sample_types byte_wire byte_wire byte_wire byte_wire byte_wire
          byte_wire unit_wire.

Definition sample_rest_of (fs : list (string * @FieldVal sample_types))
  : option unit := Some tt.

Definition sample_to_bytes (l : @MessageLit sample_types)
  : Result Bytes unit :=
  match elaborate (T := sample_types) [] sample_rest_of l with
  | Some m => Ok (sample_encode m)
  | None => Err tt
  end.

Definition sample_publish (sw : list (byte * Bytes)) (topic : Topic)
    (data : Bytes) : Result unit unit * list (byte * Bytes) :=
  if String.eqb topic "blocks" || String.eqb topic "transactions"
  then (Ok tt, sw) else (Err tt, sw).

Definition sample_poll (sw : list (byte * Bytes))
  : option (@SwarmEvent sample_types * list (byte * Bytes)) :=
  match sw with
  | (peer, data) :: rest =>
      Some (GossipsubMessage (T := sample_types) peer tt data, rest)
  | [] => None
  end.

Definition sample_other (ev : Empty_set) : @M sample_types unit :=
  match ev with end.

Definition sample_node (sw : list (byte * Bytes)) (alive : bool)
  : @NetworkNode sample_types :=
  {| swarm := sw : @Swarm sample_types; peers := tt : @PeerTable sample_types;
     event_tx := {| buffer := []; receiver_alive := alive |};
     blocks_topic := "blocks"; transactions_topic := "transactions" |}.

(** The same node, with a blocks topic that it never joined. *)
Definition unjoined_node : @NetworkNode sample_types :=
  {| swarm := [] : @Swarm sample_types; peers := tt : @PeerTable sample_types;
     event_tx := {| buffer := []; receiver_alive := true |};
     blocks_topic := "elsewhere"; transactions_topic := "transactions" |}.

Definition sample_handle_command :=
  handle_command (T := sample_types) sample_to_bytes (fun b : byte => b)
                 sample_publish.

Definition sample_handle_swarm_event :=
  handle_swarm_event (T := sample_types) sample_decode variant_name
                     sample_other.

Definition sample_run :=
  run (T := sample_types) sample_to_bytes sample_decode variant_name
      (fun b : byte => b) sample_publish sample_poll sample_other.

(** Every handle dropped, nothing queued, one inbound gossip message (a ping
    from peer [2a]) waiting in the swarm. *)
Definition abandoned_world : @World sample_types :=
  {| node := sample_node [(x2a, [x06; x01])] true;
     command_rx := {| queued := []; senders := 0 |} |}.

Definition idle_tick : @Tick sample_types :=
  {| before := Idle; commands_first := true |}.

(** An encoder with a size limit: it refuses an encoding longer than
    [limit] bytes. *)
Definition limited_to_bytes (limit : nat) (l : @MessageLit sample_types)
  : Result Bytes unit :=
  match sample_to_bytes l with
  | Ok data => if Nat.leb (List.length data) limit then Ok data else Err tt
  | Err e => Err e
  end.

Definition limited_handle_command (limit : nat) :=
  handle_command (T := sample_types) (limited_to_bytes limit)
                 (fun b : byte => b) sample_publish.

(** * Reading aids for the statements *)

Section Readers.

Context {T : Types}.

(** The event channel after the events [evs] have been sent on it in order. *)
Definition deliver (evs : list NetworkEvent) (ch : EventChannel)
  : EventChannel :=
  if receiver_alive ch
  then {| buffer := buffer ch ++ evs; receiver_alive := true |}
  else ch.

(** What [send] answers on the channel [ch]. *)
Definition send_result (ch : EventChannel) (ev : NetworkEvent)
  : Result unit NetworkEvent :=
  if receiver_alive ch then Ok tt else Err ev.

(** The message literal that each arm of [handle_command] builds. *)
Definition command_message (command : NetworkCommand) : MessageLit :=
  match command with
  | BroadcastBlock block => Lit "NewBlock" [("block", VBlock block)]
  | BroadcastTransaction tx =>
      Lit "NewTransaction" [("transaction", VTransaction tx)]
  | SendStatus _ height best_hash =>
      Lit "Status" [("height", VHeight height); ("best_hash", VHash best_hash)]
  | RequestBlocks _ start_height count =>
      Lit "GetBlocks"
          [("start_height", VHeight start_height); ("count", VCount count)]
  end.

(** The topic each arm of [handle_command] publishes on. *)
Definition command_topic (command : NetworkCommand) (self : NetworkNode)
  : Topic :=
  match command with
  | BroadcastTransaction _ => transactions_topic self
  | _ => blocks_topic self
  end.

(** The warning each arm of [handle_command] logs when [publish] fails. *)
Definition failure_line (command : NetworkCommand) (e : PublishError)
  : LogMsg :=
  match command with
  | BroadcastBlock _ => FailedToBroadcastBlock e
  | BroadcastTransaction _ => FailedToBroadcastTransaction e
  | SendStatus _ _ _ => FailedToSendStatus e
  | RequestBlocks _ _ _ => FailedToRequestBlocks e
  end.

(** What each arm of [handle_command] logs once [publish] has answered. *)
Definition publish_log (block_height : Block -> Height)
    (command : NetworkCommand) (r : Result MessageId PublishError)
  : list Effect :=
  match r, command with
  | Err e, _ => [Logged WARN (failure_line command e)]
  | Ok _, BroadcastBlock block =>
      [Logged INFO (BroadcastedBlock (block_height block))]
  | Ok _, _ => []
  end.

(** The line with which the handler acknowledges an inert message. *)
Definition inert_line (peer_id : PeerId) (m : Message) : option LogMsg :=
  match m with
  | GetStatus => Some (ReceivedGetStatus peer_id)
  | Ping nonce => Some (ReceivedPing peer_id nonce)
  | Pong nonce => Some (ReceivedPong peer_id nonce)
  | _ => None
  end.

(** The inbound messages that the handler only logs. *)
Definition inert (m : Message) : bool :=
  match m with
  | GetStatus | Ping _ | Pong _ => true
  | _ => false
  end.

End Readers.

(** * The handler before the patch, and more reading aids *)

Section Before.

Context {T : Types}.

(** The event of the handler that [update_message_handling.py] replaces
    (lines 17-20): the decoded message itself, with its source. *)
Inductive OldNetworkEvent : Type :=
| MessageReceived (peer_id : PeerId) (message : Message).

(** The event channel of that handler, seen from the sender. *)
Record OldEventChannel : Type := {
  old_buffer : list OldNetworkEvent;
  old_receiver_alive : bool
}.

Inductive OldEffect : Type :=
| OldSent (event : OldNetworkEvent) (result : Result unit OldNetworkEvent)
| OldLogged (level : Level) (msg : LogMsg).

Definition old_channel_send (ev : OldNetworkEvent) (ch : OldEventChannel)
  : Result unit OldNetworkEvent * OldEventChannel :=
  if old_receiver_alive ch
  then (Ok tt, {| old_buffer := old_buffer ch ++ [ev];
                  old_receiver_alive := true |})
  else (Err ev, ch).

Variable from_bytes : Bytes -> Result Message DecodeError.
Variable message_type : Message -> string.

(** [old_handling] ([update_message_handling.py], lines 8-26): the gossipsub
    arm before the patch.  Of [self] it only uses [event_tx], which is passed
    and returned. *)
Definition old_handling (peer_id : PeerId) (message_id : MessageId)
    (data : Bytes) (event_tx : OldEventChannel)
  : OldEventChannel * list OldEffect :=
  match from_bytes data with
  | Ok msg =>
      let '(r, ch) :=
        old_channel_send (MessageReceived peer_id msg) event_tx in
      (ch, [OldLogged INFO (ReceivedFrom (message_type msg) peer_id);
            OldSent (MessageReceived peer_id msg) r])
  | Err e => (event_tx, [OldLogged WARN (FailedToDeserialize peer_id e)])
  end.

Definition old_events_of (t : list OldEffect) : list OldNetworkEvent :=
  filter_map (fun e => match e with OldSent ev _ => Some ev | _ => None end) t.

(** The events that the patched handler makes of a decoded message: the
    conversion of lines 41-88. *)
Definition events_for (peer_id : PeerId) (msg : Message) : list NetworkEvent :=
  match msg with
  | NewBlock block => [BlockReceived peer_id block]
  | NewTransaction transaction => [TransactionReceived peer_id transaction]
  | Status height best_block_hash _ =>
      [StatusReceived peer_id height best_block_hash]
  | GetBlocks start_height count => [BlocksRequested peer_id start_height count]
  | Blocks blocks => map (BlockReceived peer_id) blocks
  | GetStatus | Ping _ | Pong _ => []
  end.

(** The peer an event is attributed to. *)
Definition event_peer (ev : NetworkEvent) : PeerId :=
  match ev with
  | BlockReceived p _ => p
  | TransactionReceived p _ => p
  | StatusReceived p _ _ => p
  | BlocksRequested p _ _ => p
  end.

(** What follows the first log line in the trace of a decoded message. *)
Definition message_trace (ch : EventChannel) (peer_id : PeerId) (msg : Message)
  : list Effect :=
  match inert_line peer_id msg with
  | Some line => [Logged INFO line]
  | None => map (fun ev => Sent ev (send_result ch ev)) (events_for peer_id msg)
  end.

(** The event that a command of one node becomes at a peer that receives its
    payload from [source]. *)
Definition command_event (source : PeerId) (command : NetworkCommand)
  : option NetworkEvent :=
  match command with
  | BroadcastBlock block => Some (BlockReceived source block)
  | BroadcastTransaction tx => Some (TransactionReceived source tx)
  | SendStatus _ _ _ => None
  | RequestBlocks _ start_height count =>
      Some (BlocksRequested source start_height count)
  end.

Definition send_failed (e : Effect) : bool :=
  match e with
  | Sent _ (Ok _) => false
  | _ => true
  end.

Definition command_first_tick : Tick :=
  {| before := Idle; commands_first := true |}.

End Before.

(** * The line filter of [fix_network_syntax.py] *)

From Stdlib Require Import NArith Ascii.

(** A Python [str]: the sequence of its code points. *)
Definition Str : Type := list N.

Definition of_ascii (s : string) : Str :=
  map N_of_ascii (list_ascii_of_string s).

(** The characters that [str.strip()] removes, those of [str.isspace]. *)
Definition is_space (c : N) : bool :=
  (N.leb 9 c && N.leb c 13)
  || (N.leb 28 c && N.leb c 32)
  || N.eqb c 133 || N.eqb c 160 || N.eqb c 5760
  || (N.leb 8192 c && N.leb c 8202)
  || N.eqb c 8232 || N.eqb c 8233 || N.eqb c 8239 || N.eqb c 8287
  || N.eqb c 12288.

Fixpoint lstrip (s : Str) : Str :=
  match s with
  | [] => []
  | c :: s' => if is_space c then lstrip s' else s
  end.

Definition rstrip (s : Str) : Str := rev (lstrip (rev s)).

(** [s.strip()] *)
Definition strip (s : Str) : Str := rstrip (lstrip s).

(** [a == b] on strings *)
Fixpoint str_eqb (a b : Str) : bool :=
  match a, b with
  | [], [] => true
  | x :: a', y :: b' => N.eqb x y && str_eqb a' b'
  | _, _ => false
  end.

Fixpoint starts_with (p s : Str) : bool :=
  match p, s with
  | [], _ => true
  | x :: p', y :: s' => N.eqb x y && starts_with p' s'
  | _ :: _, [] => false
  end.

(** [p in s] *)
Fixpoint contains (p s : Str) : bool :=
  starts_with p s
  || match s with
     | [] => false
     | _ :: s' => contains p s'
     end.

Definition comma : Str := Eval cbv in of_ascii ",".
Definition NewListenAddr : Str := Eval cbv in of_ascii "NewListenAddr".

(** [enumerate(l)] *)
Definition enumerate {A} (l : list A) : list (nat * A) :=
  combine (seq 0 (List.length l)) l.

(** The body of the [for] loop (lines 11-21), on the two variables it
    updates, [skip_next] and [cleaned_lines]. *)
Definition fix_step (lines : list Str) (st : nat * list Str)
    (item : nat * Str) : nat * list Str :=
  let '(skip_next, cleaned_lines) := st in
  let '(i, line) := item in
  if Nat.ltb i (List.length lines - 1)
     && str_eqb (strip line) comma
     && contains NewListenAddr (nth (i + 1) lines [])
  then (3, cleaned_lines)
  else if Nat.ltb 0 skip_next then (skip_next - 1, cleaned_lines)
  else (skip_next, cleaned_lines ++ [line]).

(** From [readlines()] to [writelines(cleaned_lines)]. *)
Definition fix_network_syntax (lines : list Str) : list Str :=
  snd (fold_left (fix_step lines) (enumerate lines) (0, [])).

(** A line that starts a fragment: it strips to a comma and the line after it
    mentions [NewListenAddr]. *)
Definition starts_fragment (line : Str) (rest : list Str) : bool :=
  match rest with
  | [] => false
  | next :: _ => str_eqb (strip line) comma && contains NewListenAddr next
  end.

(** The same loop, by recursion on the lines still to read. *)
Fixpoint clean (skip_next : nat) (lines : list Str) : list Str :=
  match lines with
  | [] => []
  | line :: rest =>
      if starts_fragment line rest then clean 3 rest
      else if Nat.ltb 0 skip_next then clean (skip_next - 1) rest
      else line :: clean skip_next rest
  end.

(** [a] is [b] with some elements left out. *)
Inductive Subseq {A : Type} : list A -> list A -> Prop :=
| subseq_nil : Subseq [] []
| subseq_skip (x : A) (a b : list A) : Subseq a b -> Subseq a (x :: b)
| subseq_keep (x : A) (a b : list A) : Subseq a b -> Subseq (x :: a) (x :: b).

(** A line as [readlines()] gives it: the text, then a line feed. *)
Definition text_line (s : string) : Str := of_ascii s ++ [10%N].

(** A file with the leftover fragment between an enum and a function. *)
Definition sample_before : list Str :=
  [text_line "pub enum Kind {"; text_line "    Block"].

Definition sample_after : list Str :=
  [text_line ""; text_line "fn main() {}"].

(** * Properties of the actor *)

Section Properties.

Context {T : Types}.

Variable to_bytes : MessageLit -> Result Bytes EncodeError.
Variable from_bytes : Bytes -> Result Message DecodeError.
Variable message_type : Message -> string.
Variable block_height : Block -> Height.
Variable gossipsub_publish :
  Swarm -> Topic -> Bytes -> Result MessageId PublishError * Swarm.
Variable poll_next_event : Swarm -> option (SwarmEvent * Swarm).
Variable handle_other_event : OtherSwarmEvent -> M unit.

Local Abbreviation on_command := (handle_command to_bytes block_height gossipsub_publish).
Local Abbreviation on_event := (handle_swarm_event from_bytes message_type handle_other_event).
Local Abbreviation pass :=
  (iteration to_bytes from_bytes message_type block_height gossipsub_publish
             poll_next_event handle_other_event).
Local Abbreviation the_loop :=
  (loop to_bytes from_bytes message_type block_height gossipsub_publish
        poll_next_event handle_other_event).
Local Abbreviation the_run :=
  (run to_bytes from_bytes message_type block_height gossipsub_publish
       poll_next_event handle_other_event).

(** ** The event channel *)

Lemma with_event_tx_same (self : NetworkNode) :
  with_event_tx self (event_tx self) = self.
Proof. destruct self; reflexivity. Qed.

Lemma deliver_nil (ch : EventChannel) : deliver [] ch = ch.
Proof.
  unfold deliver. destruct ch as [buf [|]]; simpl; [|reflexivity].
  now rewrite app_nil_r.
Qed.

Lemma deliver_cons (ev : NetworkEvent) (evs : list NetworkEvent)
    (ch : EventChannel) :
  deliver evs (snd (channel_send ev ch)) = deliver (ev :: evs) ch.
Proof.
  unfold deliver, channel_send. destruct ch as [buf [|]]; simpl; [|reflexivity].
  now rewrite <- app_assoc.
Qed.

Lemma channel_send_result (ev : NetworkEvent) (ch : EventChannel) :
  fst (channel_send ev ch) = send_result ch ev.
Proof. unfold channel_send, send_result. destruct (receiver_alive ch); reflexivity. Qed.

Lemma channel_send_alive (ev : NetworkEvent) (ch : EventChannel) :
  receiver_alive (snd (channel_send ev ch)) = receiver_alive ch.
Proof. unfold channel_send. destruct ch as [buf [|]]; reflexivity. Qed.

(** The [for] loop of the [Blocks] arm: one send per block, in order. *)
Lemma for_each_block_sends (peer : PeerId) (blocks : list Block) :
  forall self : NetworkNode,
    for_each blocks
      (fun block =>
         bind (event_tx_send (BlockReceived peer block)) (fun _ => ret tt))
      self
    = (tt,
       with_event_tx self
         (deliver (map (BlockReceived peer) blocks) (event_tx self)),
       map (fun block =>
              Sent (BlockReceived peer block)
                   (send_result (event_tx self) (BlockReceived peer block)))
           blocks).
Proof.
  induction blocks as [|b blocks IH]; intros self.
  - simpl. now rewrite deliver_nil, with_event_tx_same.
  - cbn [for_each map]. unfold bind at 1. unfold bind at 1.
    unfold event_tx_send at 1, ret at 1.
    destruct (channel_send (BlockReceived peer b) (event_tx self))
      as [res ch] eqn:Hsend.
    rewrite IH. cbn [event_tx with_event_tx].
    pose proof (deliver_cons (BlockReceived peer b)
                  (map (BlockReceived peer) blocks) (event_tx self)) as Hd.
    pose proof (channel_send_alive (BlockReceived peer b) (event_tx self))
      as Ha.
    pose proof (channel_send_result (BlockReceived peer b) (event_tx self))
      as Hr.
    rewrite Hsend in Hd, Ha, Hr. cbn [fst snd] in Hd, Ha, Hr.
    rewrite Hd, Hr. unfold send_result. rewrite Ha. reflexivity.
Qed.

Lemma events_of_sends (peer : PeerId) (ch : EventChannel)
    (blocks : list Block) :
  events_of
    (map (fun block =>
            Sent (BlockReceived peer block)
                 (send_result ch (BlockReceived peer block))) blocks)
  = map (BlockReceived peer) blocks.
Proof.
  induction blocks as [|b blocks IH]; [reflexivity|].
  unfold events_of in *. cbn [map filter_map sent_event]. now rewrite IH.
Qed.

Lemma publishes_of_sends (peer : PeerId) (ch : EventChannel)
    (blocks : list Block) :
  publishes_of
    (map (fun block =>
            Sent (BlockReceived peer block)
                 (send_result ch (BlockReceived peer block))) blocks)
  = [].
Proof.
  induction blocks as [|b blocks IH]; [reflexivity|].
  unfold publishes_of in *. cbn [map filter_map published]. exact IH.
Qed.

(** C1.  When an inbound gossip message from peer [peer] decodes to
    [Blocks blocks], the handler sends exactly the events
    [BlockReceived peer b], one for each block [b] of the payload and in the
    payload's order, and no other event; it publishes nothing; and a live
    receiver finds exactly these events appended to its queue. *)
Theorem blocks_fan_out (peer : PeerId) (message_id : MessageId) (data : Bytes)
    (blocks : list Block) (self : NetworkNode) :
  from_bytes data = Ok (Blocks blocks) ->
  let r := on_event (GossipsubMessage peer message_id data) self in
  events_of (trace_of r) = map (BlockReceived peer) blocks
  /\ List.length (events_of (trace_of r)) = List.length blocks
  /\ publishes_of (trace_of r) = []
  /\ node_of r
     = with_event_tx self
         (deliver (map (BlockReceived peer) blocks) (event_tx self)).
Proof.
  intros Hdec r.
  assert (E : r = (tt,
                   with_event_tx self
                     (deliver (map (BlockReceived peer) blocks) (event_tx self)),
                   Logged INFO (ReceivedFrom (message_type (Blocks blocks)) peer)
                   :: map (fun block =>
                             Sent (BlockReceived peer block)
                                  (send_result (event_tx self)
                                               (BlockReceived peer block)))
                          blocks)).
  { subst r. cbn [handle_swarm_event]. rewrite Hdec.
    unfold bind at 1, info at 1. now rewrite for_each_block_sends. }
  rewrite E. unfold trace_of, node_of. cbn [fst snd].
  change (events_of (Logged INFO ?m :: ?t)) with (events_of t).
  change (publishes_of (Logged INFO ?m :: ?t)) with (publishes_of t).
  rewrite events_of_sends, publishes_of_sends, length_map. auto.
Qed.

(** ** Inbound payloads *)

(** C4.  When the payload of an inbound gossip message does not decode, the
    handler sends no event and publishes nothing, logs one warning and leaves
    the actor as it was; so whatever transport event comes next is handled
    exactly as if the payload had never arrived, and the pass of the loop that
    took the message ends inside the loop. *)
Theorem undecodable_payload_dropped (peer : PeerId) (message_id : MessageId)
    (data : Bytes) (e : DecodeError) (self : NetworkNode) :
  from_bytes data = Err e ->
  let bad := GossipsubMessage peer message_id data in
  on_event bad self = (tt, self, [Logged WARN (FailedToDeserialize peer e)])
  /\ events_of (trace_of (on_event bad self)) = []
  /\ publishes_of (trace_of (on_event bad self)) = []
  /\ (forall next : SwarmEvent,
        bind (on_event bad) (fun _ => on_event next) self
        = let '(u, self', t) := on_event next self in
          (u, self', Logged WARN (FailedToDeserialize peer e) :: t))
  /\ (forall (first : bool) (rx : CommandRx) (sw' : Swarm),
        select poll_next_event first rx (swarm self) = TookEvent bad sw' ->
        pass first {| node := self; command_rx := rx |}
        = Looping {| node := with_swarm self sw'; command_rx := rx |}
                  [Logged WARN (FailedToDeserialize peer e)]).
Proof.
  intros Hdec bad.
  assert (E : forall s, on_event bad s
                        = (tt, s, [Logged WARN (FailedToDeserialize peer e)])).
  { intros s. subst bad. cbn [handle_swarm_event]. now rewrite Hdec. }
  repeat split.
  - apply E.
  - now rewrite E.
  - now rewrite E.
  - intros next. unfold bind. rewrite E.
    destruct (on_event next self) as [[u self'] t]. reflexivity.
  - intros first rx sw' Hsel. unfold iteration. cbn [node command_rx].
    rewrite Hsel. now rewrite E.
Qed.

(** C7.  When an inbound gossip message decodes to [GetStatus], [Ping] or
    [Pong], the handler sends no event and publishes nothing (a ping is not
    answered by a pong); it leaves the actor as it was and writes two
    information lines to the log, the general one and the one of the
    variant. *)
Theorem inert_messages_only_logged (peer : PeerId) (message_id : MessageId)
    (data : Bytes) (msg : Message) (self : NetworkNode) :
  from_bytes data = Ok msg ->
  inert msg = true ->
  let r := on_event (GossipsubMessage peer message_id data) self in
  events_of (trace_of r) = []
  /\ publishes_of (trace_of r) = []
  /\ node_of r = self
  /\ exists line,
       inert_line peer msg = Some line
       /\ trace_of r = [Logged INFO (ReceivedFrom (message_type msg) peer);
                        Logged INFO line].
Proof.
  intros Hdec Hinert r. subst r. cbn [handle_swarm_event]. rewrite Hdec.
  destruct msg; try discriminate Hinert; cbn;
    (repeat split; try reflexivity; eexists; split; reflexivity).
Qed.

(** ** Commands *)

(** What [handle_command] does, arm by arm: nothing when the message does not
    encode; otherwise one publish on the arm's topic, then the arm's log
    line. *)
Lemma handle_command_unfold (command : NetworkCommand) (self : NetworkNode) :
  on_command command self
  = match to_bytes (command_message command) with
    | Ok data =>
        let topic := command_topic command self in
        let '(r, sw) := gossipsub_publish (swarm self) topic data in
        (tt, with_swarm self sw,
         Published topic data r :: publish_log block_height command r)
    | Err _ => (tt, self, [])
    end.
Proof.
  destruct command; cbn [handle_command command_message command_topic];
    (destruct (to_bytes _) as [data|err]; [|reflexivity]);
    unfold bind, publish;
    (destruct (gossipsub_publish _ _ data) as [[mid|e] sw]; reflexivity).
Qed.

Lemma publishes_of_publish_log (command : NetworkCommand)
    (r : Result MessageId PublishError) :
  publishes_of (publish_log block_height command r) = [].
Proof. destruct r, command; reflexivity. Qed.

Lemma events_of_publish_log (command : NetworkCommand)
    (r : Result MessageId PublishError) :
  events_of (publish_log block_height command r) = [].
Proof. destruct r, command; reflexivity. Qed.

(** The publish attempts of one command: at most one, on the arm's topic. *)
Lemma publishes_of_command (command : NetworkCommand) (self : NetworkNode) :
  publishes_of (trace_of (on_command command self))
  = match to_bytes (command_message command) with
    | Ok data =>
        [(command_topic command self, data,
          fst (gossipsub_publish (swarm self) (command_topic command self)
                                 data))]
    | Err _ => []
    end.
Proof.
  rewrite handle_command_unfold.
  destruct (to_bytes _) as [data|err]; [|reflexivity].
  cbv zeta.
  destruct (gossipsub_publish _ _ data) as [r sw].
  unfold trace_of. cbn [fst snd].
  change (publishes_of (Published ?t ?d ?x :: ?l))
    with ((t, d, x) :: publishes_of l).
  now rewrite publishes_of_publish_log.
Qed.

Lemma events_of_command (command : NetworkCommand) (self : NetworkNode) :
  events_of (trace_of (on_command command self)) = [].
Proof.
  rewrite handle_command_unfold.
  destruct (to_bytes _) as [data|err]; [|reflexivity].
  cbv zeta.
  destruct (gossipsub_publish _ _ data) as [r sw].
  unfold trace_of. cbn [fst snd].
  change (events_of (Published ?t ?d ?x :: ?l)) with (events_of l).
  apply events_of_publish_log.
Qed.

(** A command that [select] hands to the handler was the oldest of the queue
    and is no longer in it. *)
Lemma select_took_command (first : bool) (rx rx' : CommandRx) (sw : Swarm)
    (command : NetworkCommand) :
  select poll_next_event first rx sw = TookCommand command rx' ->
  queued rx = command :: queued rx' /\ senders rx' = senders rx.
Proof.
  unfold select, command_branch, poll_recv, event_branch.
  destruct (queued rx) as [|c rest] eqn:Hq.
  - destruct (Nat.eqb (senders rx) 0);
      destruct (poll_next_event sw) as [[e sw']|]; discriminate.
  - destruct (poll_next_event sw) as [[e sw']|]; [destruct first|];
      intros H; inversion H; subst; cbn; auto.
Qed.

Lemma pass_took_command (first : bool) (rx rx' : CommandRx)
    (self : NetworkNode) (command : NetworkCommand) :
  select poll_next_event first rx (swarm self) = TookCommand command rx' ->
  pass first {| node := self; command_rx := rx |}
  = Looping {| node := node_of (on_command command self); command_rx := rx' |}
            (trace_of (on_command command self)).
Proof.
  intros Hsel. unfold iteration. cbn [node command_rx]. rewrite Hsel.
  destruct (on_command command self) as [[u self'] t]. reflexivity.
Qed.

(** C5.  For a dequeued [RequestBlocks {peer_id, start_height, count}] the
    handler builds the literal [Message::GetBlocks {start_height, count}],
    which denotes that message whatever the rest of the declaration is, and
    makes exactly one publish, of the encoding, on [blocks_topic]; and this
    with any state of the event channel, a dropped receiver included. *)
Theorem request_blocks_published (peer : PeerId) (start_height : Height)
    (count : Count) (data : Bytes) (self : NetworkNode) :
  let message :=
    Lit "GetBlocks"
        [("start_height", VHeight start_height); ("count", VCount count)] in
  to_bytes message = Ok data ->
  let command := RequestBlocks peer start_height count in
  (forall names rest_of,
     elaborate names rest_of message = Some (GetBlocks start_height count))
  /\ publishes_of (trace_of (on_command command self))
     = [(blocks_topic self, data,
         fst (gossipsub_publish (swarm self) (blocks_topic self) data))]
  /\ (forall ch : EventChannel,
        publishes_of (trace_of (on_command command (with_event_tx self ch)))
        = [(blocks_topic self, data,
            fst (gossipsub_publish (swarm self) (blocks_topic self) data))]).
Proof.
  intros message Henc command. split; [|split].
  - intros names rest_of. reflexivity.
  - subst command. rewrite publishes_of_command.
    cbn [command_message command_topic]. fold message. now rewrite Henc.
  - intros ch. subst command. rewrite publishes_of_command.
    cbn [command_message command_topic]. fold message. now rewrite Henc.
Qed.

(** C8.  When the publish of a dequeued command fails, the handler's whole
    trace is that one failed publish followed by one warning: there is no
    second attempt and no event for anyone; the command has left the queue;
    and the pass of the loop that took it ends inside the loop. *)
Theorem publish_failure_contained (command : NetworkCommand)
    (self : NetworkNode) (topic : Topic) (data : Bytes) (e : PublishError) :
  In (topic, data, Err e) (publishes_of (trace_of (on_command command self))) ->
  trace_of (on_command command self)
  = [Published topic data (Err e); Logged WARN (failure_line command e)]
  /\ events_of (trace_of (on_command command self)) = []
  /\ (forall (first : bool) (rx rx' : CommandRx),
        select poll_next_event first rx (swarm self) = TookCommand command rx' ->
        queued rx = command :: queued rx'
        /\ exists self',
             pass first {| node := self; command_rx := rx |}
             = Looping {| node := self'; command_rx := rx' |}
                       [Published topic data (Err e);
                        Logged WARN (failure_line command e)]).
Proof.
  intros Hin.
  assert (Ht : trace_of (on_command command self)
               = [Published topic data (Err e);
                  Logged WARN (failure_line command e)]).
  { rewrite publishes_of_command in Hin. rewrite handle_command_unfold.
    destruct (to_bytes _) as [d|err]; [|destruct Hin].
    cbv zeta.
    destruct (gossipsub_publish _ _ d) as [r sw]. cbn [fst] in Hin.
    destruct Hin as [Heq|[]]. inversion Heq; subst. reflexivity. }
  split; [exact Ht|]. split; [apply events_of_command|].
  intros first rx rx' Hsel. split.
  - eapply select_took_command, Hsel.
  - eexists. erewrite pass_took_command by exact Hsel. rewrite Ht. reflexivity.
Qed.

(** C9.  When the message of a dequeued command does not encode, the handler
    publishes nothing, sends no event, logs nothing and returns with the actor
    as it was; the pass of the loop that took the command ends inside the
    loop. *)
Theorem encode_failure_silent (command : NetworkCommand) (err : EncodeError)
    (self : NetworkNode) :
  to_bytes (command_message command) = Err err ->
  on_command command self = (tt, self, [])
  /\ (forall (first : bool) (rx rx' : CommandRx),
        select poll_next_event first rx (swarm self) = TookCommand command rx' ->
        pass first {| node := self; command_rx := rx |}
        = Looping {| node := self; command_rx := rx' |} []).
Proof.
  intros Henc.
  assert (E : on_command command self = (tt, self, [])).
  { rewrite handle_command_unfold. now rewrite Henc. }
  split; [exact E|].
  intros first rx rx' Hsel. erewrite pass_took_command by exact Hsel.
  now rewrite E.
Qed.

(** C10.  [SendStatus] and [RequestBlocks] do not consult [peer_id]: two
    commands that differ only there are handled identically (same state, same
    trace), and what each publishes, if its message encodes, is one payload on
    [blocks_topic], with no addressee. *)
Theorem peer_id_not_consulted (p1 p2 : PeerId) (height start_height : Height)
    (best_hash : Hash) (count : Count) (self : NetworkNode) :
  on_command (SendStatus p1 height best_hash) self
  = on_command (SendStatus p2 height best_hash) self
  /\ on_command (RequestBlocks p1 start_height count) self
     = on_command (RequestBlocks p2 start_height count) self
  /\ publishes_of (trace_of (on_command (SendStatus p1 height best_hash) self))
     = match to_bytes (Lit "Status" [("height", VHeight height);
                                     ("best_hash", VHash best_hash)]) with
       | Ok data =>
           [(blocks_topic self, data,
             fst (gossipsub_publish (swarm self) (blocks_topic self) data))]
       | Err _ => []
       end
  /\ publishes_of
       (trace_of (on_command (RequestBlocks p1 start_height count) self))
     = match to_bytes (Lit "GetBlocks" [("start_height", VHeight start_height);
                                        ("count", VCount count)]) with
       | Ok data =>
           [(blocks_topic self, data,
             fst (gossipsub_publish (swarm self) (blocks_topic self) data))]
       | Err _ => []
       end.
Proof.
  repeat split; try reflexivity; apply publishes_of_command.
Qed.

(** ** The literal of the [SendStatus] arm *)

Lemma mem_In (s : string) (l : list string) : mem s l = true <-> In s l.
Proof.
  unfold mem. rewrite existsb_exists. split.
  - intros (x & Hx & Heq). apply String.eqb_eq in Heq. now subst.
  - intros H. exists s. split; [exact H|apply String.eqb_refl].
Qed.

(** No declaration of the fields of [Status] takes both the literal of the
    [SendStatus] arm and the pattern of the inbound handler. *)
Lemma status_sites_disagree (declared : list string) :
  literal_accepted declared status_literal_fields
  && pattern_accepted declared status_pattern_fields = false.
Proof.
  destruct (literal_accepted _ _) eqn:Hl; [|reflexivity].
  destruct (pattern_accepted _ _) eqn:Hp; [|reflexivity].
  exfalso.
  unfold literal_accepted in Hl. unfold pattern_accepted in Hp.
  repeat rewrite andb_true_iff in Hl. destruct Hl as [[Hdecl _] _].
  rewrite andb_true_iff in Hp. destruct Hp as [Hnamed _].
  rewrite forallb_forall in Hdecl, Hnamed.
  assert (Hb : In "best_block_hash" declared).
  { apply mem_In, Hnamed. unfold status_pattern_fields. cbn. auto. }
  apply Hdecl in Hb. discriminate Hb.
Qed.

(** C6.  The [SendStatus] arm publishes, on [blocks_topic], the encoding of
    the literal [Message::Status {height, best_hash}]; that literal is not a
    [Message::Status] of the data model, whose hash field is
    [best_block_hash]: the declaration refuses it, and no declaration takes
    both it and the pattern of the inbound handler. *)
Theorem send_status_literal_refused (names : list string)
    (rest_of : list (string * FieldVal) -> option StatusRest)
    (declared : list string) (peer : PeerId) (height : Height)
    (best_hash : Hash) (self : NetworkNode) :
  let message :=
    Lit "Status" [("height", VHeight height); ("best_hash", VHash best_hash)] in
  publishes_of (trace_of (on_command (SendStatus peer height best_hash) self))
  = match to_bytes message with
    | Ok data =>
        [(blocks_topic self, data,
          fst (gossipsub_publish (swarm self) (blocks_topic self) data))]
    | Err _ => []
    end
  /\ field_names message = status_literal_fields
  /\ literal_ok names message = false
  /\ elaborate names rest_of message = None
  /\ literal_accepted declared status_literal_fields
     && pattern_accepted declared status_pattern_fields = false.
Proof.
  intros message. repeat split; try reflexivity.
  - apply publishes_of_command.
  - apply status_sites_disagree.
Qed.

(** ** The loop *)

Lemma pass_stays_in_loop (first : bool) (w : World) :
  exists w' t, pass first w = Looping w' t.
Proof.
  unfold iteration, select, event_branch.
  destruct (command_branch (command_rx w)) as [[c rx']| |];
    destruct (poll_next_event (swarm (node w))) as [[e sw']|];
    try destruct first;
    repeat match goal with
           | |- context [on_command ?c ?s] =>
               destruct (on_command c s) as [[? ?] ?]
           | |- context [on_event ?e ?s] =>
               destruct (on_event e s) as [[? ?] ?]
           end;
    eauto.
Qed.

Lemma loop_stays_in_loop (sched : list Tick) :
  forall w : World, exists w' t, the_loop sched w = Looping w' t.
Proof.
  induction sched as [|tick sched IH]; intros w; cbn [loop].
  - eauto.
  - destruct (pass_stays_in_loop (commands_first tick)
                (env_step (before tick) w)) as (w1 & t1 & H1).
    rewrite H1. destruct (IH w1) as (w2 & t2 & H2). rewrite H2.
    cbn [after]. eauto.
Qed.

Lemma run_stays_in_loop (sched : list Tick) (w : World) :
  exists w' t, the_run sched w = Looping w' t.
Proof.
  unfold run. destruct (loop_stays_in_loop sched w) as (w' & t & H).
  rewrite H. cbn [after]. eauto.
Qed.

(** C2, as the code has it.  [run] has no exit: after any number of passes,
    under any schedule of the environment, it has neither returned nor
    panicked; no command stops it.  Once every sender is dropped and the queue
    is empty the command branch is disabled, and a pass handles the pending
    transport event if there is one and parks otherwise. *)
Theorem run_has_no_exit (sched : list Tick) (w : World) (first : bool)
    (self : NetworkNode) :
  let closed := {| queued := []; senders := 0 |} in
  stopped (the_run sched w) = false
  /\ panicked (the_run sched w) = false
  /\ command_branch closed = Disabled
  /\ pass first {| node := self; command_rx := closed |}
     = match poll_next_event (swarm self) with
       | Some (event, sw') =>
           let '(_, self', t) := on_event event (with_swarm self sw') in
           Looping {| node := self'; command_rx := closed |} t
       | None => Looping {| node := self; command_rx := closed |} []
       end.
Proof.
  intros closed.
  destruct (run_stays_in_loop sched w) as (w' & t & H). rewrite H.
  repeat split.
  unfold iteration, select, event_branch. cbn [node command_rx].
  change (command_branch closed) with (@Disabled (NetworkCommand * CommandRx)).
  destruct (poll_next_event (swarm self)) as [[e sw']|]; reflexivity.
Qed.

End Properties.

(** * Properties of the codec *)

Section CodecProperties.

Context {T : Types}.
Context {WBlock : Wire Block} {WTransaction : Wire Transaction}
        {WHash : Wire Hash} {WHeight : Wire Height} {WCount : Wire Count}
        {WNonce : Wire Nonce} {WRest : Wire StatusRest}.
Context {LBlock : WireLaw Block} {LTransaction : WireLaw Transaction}
        {LHash : WireLaw Hash} {LHeight : WireLaw Height}
        {LCount : WireLaw Count} {LNonce : WireLaw Nonce}
        {LRest : WireLaw StatusRest}.

Lemma get_put_all {A} {W : Wire A} {L : WireLaw A} (a : A) :
  get (put a) = Some (a, []).
Proof. rewrite <- (app_nil_r (put a)). apply get_put. Qed.

Lemma put_seq_longer {A} {W : Wire A} (l : list A) (rest : Bytes) :
  List.length l < List.length (put_seq l ++ rest).
Proof.
  induction l as [|a l IH]; cbn [put_seq List.length app].
  - lia.
  - rewrite <- app_assoc, length_app. lia.
Qed.

Lemma get_seq_put_seq {A} {W : Wire A} {L : WireLaw A} (l : list A) :
  forall (rest : Bytes) (fuel : nat),
    List.length l < fuel ->
    get_seq fuel (put_seq l ++ rest) = Some (l, rest).
Proof.
  induction l as [|a l IH]; intros rest fuel Hfuel;
    (destruct fuel as [|fuel]; [inversion Hfuel|]).
  - reflexivity.
  - cbn [put_seq app get_seq List.length] in *.
    change (Byte.eqb x01 x00) with false. change (Byte.eqb x01 x01) with true.
    cbv iota. rewrite <- app_assoc, get_put.
    rewrite IH by lia. reflexivity.
Qed.

(** C3.  Over value types that are read back as written, decoding the
    encoding of a message gives that message, for each of the eight
    variants. *)
Theorem decode_encode (m : Message) : decode (encode m) = Ok m.
Proof.
  destruct m; unfold decode, encode.
  - change (Byte.eqb x00 x00) with true. cbv iota.
    now rewrite get_put_all.
  - change (Byte.eqb x01 x00) with false. change (Byte.eqb x01 x01) with true.
    cbv iota. now rewrite get_put_all.
  - change (Byte.eqb x02 x00) with false. change (Byte.eqb x02 x01) with false.
    change (Byte.eqb x02 x02) with true. cbv iota.
    rewrite get_put. cbn [and_then]. rewrite get_put. cbn [and_then].
    now rewrite get_put_all.
  - change (Byte.eqb x03 x00) with false. change (Byte.eqb x03 x01) with false.
    change (Byte.eqb x03 x02) with false. change (Byte.eqb x03 x03) with true.
    cbv iota. rewrite get_put. cbn [and_then]. now rewrite get_put_all.
  - change (Byte.eqb x04 x00) with false. change (Byte.eqb x04 x01) with false.
    change (Byte.eqb x04 x02) with false. change (Byte.eqb x04 x03) with false.
    change (Byte.eqb x04 x04) with true. cbv iota.
    rewrite <- (app_nil_r (put_seq blocks)) at 2.
    rewrite get_seq_put_seq; [reflexivity|].
    pose proof (put_seq_longer blocks []) as H.
    rewrite app_nil_r in H. lia.
  - reflexivity.
  - change (Byte.eqb x06 x00) with false. change (Byte.eqb x06 x01) with false.
    change (Byte.eqb x06 x02) with false. change (Byte.eqb x06 x03) with false.
    change (Byte.eqb x06 x04) with false. change (Byte.eqb x06 x05) with false.
    change (Byte.eqb x06 x06) with true. cbv iota. now rewrite get_put_all.
  - change (Byte.eqb x07 x00) with false. change (Byte.eqb x07 x01) with false.
    change (Byte.eqb x07 x02) with false. change (Byte.eqb x07 x03) with false.
    change (Byte.eqb x07 x04) with false. change (Byte.eqb x07 x05) with false.
    change (Byte.eqb x07 x06) with false. change (Byte.eqb x07 x07) with true.
    cbv iota. now rewrite get_put_all.
Qed.

End CodecProperties.

(** * The properties on the small instance *)

Lemma byte_wire_law : @WireLaw byte byte_wire.
Proof. intros a rest. reflexivity. Qed.

Lemma unit_wire_law : @WireLaw unit unit_wire.
Proof. intros [] rest. reflexivity. Qed.

(** Three blocks from peer [2a] give three events, in the order of the
    payload. *)
Lemma blocks_fan_out_witness :
  sample_decode [x04; x01; x0a; x01; x0b; x01; x0c; x00]
  = Ok (Blocks (T := sample_types) [x0a; x0b; x0c])
  /\ events_of
       (trace_of
          (sample_handle_swarm_event
             (GossipsubMessage (T := sample_types) x2a tt
                [x04; x01; x0a; x01; x0b; x01; x0c; x00])
             (sample_node [] true)))
     = [BlockReceived (T := sample_types) x2a x0a;
        BlockReceived (T := sample_types) x2a x0b;
        BlockReceived (T := sample_types) x2a x0c].
Proof.
  split; [reflexivity|].
  exact (proj1 (@blocks_fan_out sample_types sample_decode variant_name
                  sample_other x2a tt
                  [x04; x01; x0a; x01; x0b; x01; x0c; x00]
                  [x0a; x0b; x0c] (sample_node [] true) eq_refl)).
Defined.

(** A payload with an unknown tag gives one warning and nothing else. *)
Lemma undecodable_payload_dropped_witness :
  sample_decode [xff] = Err (UnknownVariant xff)
  /\ sample_handle_swarm_event
       (GossipsubMessage (T := sample_types) x2a tt [xff]) (sample_node [] true)
     = (tt, sample_node [] true,
        [Logged (T := sample_types) WARN
                (FailedToDeserialize (T := sample_types) x2a
                                     (UnknownVariant xff))]).
Proof.
  split; [reflexivity|].
  exact (proj1 (@undecodable_payload_dropped sample_types sample_to_bytes
                  sample_decode variant_name (fun b : byte => b)
                  sample_publish sample_poll sample_other x2a tt [xff]
                  (UnknownVariant xff) (sample_node [] true) eq_refl)).
Defined.

(** A ping is logged and not answered. *)
Lemma inert_messages_only_logged_witness :
  sample_decode [x06; x01] = Ok (Ping (T := sample_types) x01)
  /\ inert (Ping (T := sample_types) x01) = true
  /\ events_of
       (trace_of
          (sample_handle_swarm_event
             (GossipsubMessage (T := sample_types) x2a tt [x06; x01])
             (sample_node [] true)))
     = []
  /\ publishes_of
       (trace_of
          (sample_handle_swarm_event
             (GossipsubMessage (T := sample_types) x2a tt [x06; x01])
             (sample_node [] true)))
     = [].
Proof.
  split; [reflexivity|]. split; [reflexivity|].
  pose proof (@inert_messages_only_logged sample_types sample_decode
                variant_name sample_other x2a tt [x06; x01]
                (Ping (T := sample_types) x01)
                (sample_node [] true) eq_refl eq_refl) as H.
  exact (conj (proj1 H) (proj1 (proj2 H))).
Defined.

(** With no subscriber on the event channel, a request for ten blocks from
    height one hundred is published on the blocks topic. *)
Lemma request_blocks_published_witness :
  sample_to_bytes
    (Lit "GetBlocks" [("start_height", VHeight (T := sample_types) x64);
                      ("count", VCount (T := sample_types) x0a)])
  = Ok [x03; x64; x0a]
  /\ publishes_of
       (trace_of
          (sample_handle_command
             (RequestBlocks (T := sample_types) x2a x64 x0a)
             (sample_node [] false)))
     = [("blocks", [x03; x64; x0a], Ok tt)].
Proof.
  split; [reflexivity|].
  exact (proj1 (proj2 (@request_blocks_published sample_types sample_to_bytes
                         (fun b : byte => b) sample_publish x2a x64 x0a
                         [x03; x64; x0a] (sample_node [] false) eq_refl))).
Defined.

(** Publishing on a topic that was never joined fails: one attempt, one
    warning. *)
Lemma publish_failure_contained_witness :
  In ("elsewhere", [x00; x01], Err tt)
     (publishes_of
        (trace_of
           (sample_handle_command (BroadcastBlock (T := sample_types) x01)
                                  unjoined_node)))
  /\ trace_of
       (sample_handle_command (BroadcastBlock (T := sample_types) x01)
                              unjoined_node)
     = [Published (T := sample_types) "elsewhere" [x00; x01] (Err tt);
        Logged (T := sample_types) WARN
               (FailedToBroadcastBlock (T := sample_types) tt)].
Proof.
  split; [left; reflexivity|].
  exact (proj1 (@publish_failure_contained sample_types sample_to_bytes
                  sample_decode variant_name (fun b : byte => b)
                  sample_publish sample_poll sample_other
                  (BroadcastBlock (T := sample_types) x01) unjoined_node
                  "elsewhere" [x00; x01] tt (or_introl eq_refl))).
Defined.

(** A block whose encoding exceeds the encoder's limit is dropped in
    silence. *)
Lemma encode_failure_silent_witness :
  limited_to_bytes 1 (command_message (BroadcastBlock (T := sample_types) x01))
  = Err tt
  /\ limited_handle_command 1 (BroadcastBlock (T := sample_types) x01)
                            (sample_node [] true)
     = (tt, sample_node [] true, []).
Proof.
  split; [reflexivity|].
  exact (proj1 (@encode_failure_silent sample_types (limited_to_bytes 1)
                  sample_decode variant_name (fun b : byte => b)
                  sample_publish sample_poll sample_other
                  (BroadcastBlock (T := sample_types) x01) tt
                  (sample_node [] true) eq_refl)).
Defined.

(** Every message of the instance survives the round trip. *)
Lemma decode_encode_witness :
  @WireLaw byte byte_wire
  /\ @WireLaw unit unit_wire
  /\ sample_decode (sample_encode (Status (T := sample_types) x05 xff tt))
     = Ok (Status (T := sample_types) x05 xff tt).
Proof.
  split; [exact byte_wire_law|]. split; [exact unit_wire_law|].
  exact (@decode_encode sample_types byte_wire byte_wire byte_wire byte_wire
           byte_wire byte_wire unit_wire byte_wire_law byte_wire_law
           byte_wire_law byte_wire_law byte_wire_law byte_wire_law
           unit_wire_law (Status (T := sample_types) x05 xff tt)).
Defined.

(** C2, as the claim has it, fails: with every sender dropped, the queue
    empty and a transport event pending, [run] does not return, however many
    passes it makes. *)
Lemma abandoned_loop_never_stops :
  senders (command_rx abandoned_world) = 0
  /\ ~ (exists sched : list Tick,
          stopped (sample_run sched abandoned_world) = true).
Proof.
  split; [reflexivity|].
  intros [sched H]. unfold sample_run in H.
  destruct (run_stays_in_loop sample_to_bytes sample_decode variant_name
              (fun b : byte => b) sample_publish sample_poll sample_other
              sched abandoned_world) as (w' & t & E).
  rewrite E in H. discriminate H.
Qed.

(** The pending ping of the abandoned world is handled by the first pass, and
    the loop goes on. *)
Example abandoned_loop_first_pass :
  sample_run [idle_tick] abandoned_world
  = Looping
      {| node := sample_node [] true;
         command_rx := {| queued := []; senders := 0 |} |}
      [Logged (T := sample_types) INFO StartingEventLoop;
       Logged INFO (ReceivedFrom (T := sample_types) "Ping" x2a);
       Logged INFO (ReceivedPing (T := sample_types) x2a x01)].
Proof. reflexivity. Qed.

(** With the codec of the declared enum, [SendStatus] publishes nothing. *)
Example send_status_on_the_sample :
  sample_handle_command (SendStatus (T := sample_types) x2a x05 xff)
                        (sample_node [] true)
  = (tt, sample_node [] true, []).
Proof. reflexivity. Qed.

(** * More properties of the handlers and of the loop *)

Section MoreProperties.

Context {T : Types}.

Variable to_bytes : MessageLit -> Result Bytes EncodeError.
Variable from_bytes : Bytes -> Result Message DecodeError.
Variable message_type : Message -> string.
Variable block_height : Block -> Height.
Variable gossipsub_publish :
  Swarm -> Topic -> Bytes -> Result MessageId PublishError * Swarm.
Variable poll_next_event : Swarm -> option (SwarmEvent * Swarm).
Variable handle_other_event : OtherSwarmEvent -> M unit.

Local Abbreviation on_command :=
  (handle_command to_bytes block_height gossipsub_publish).
Local Abbreviation on_event :=
  (handle_swarm_event from_bytes message_type handle_other_event).
Local Abbreviation pass :=
  (iteration to_bytes from_bytes message_type block_height gossipsub_publish
             poll_next_event handle_other_event).
Local Abbreviation the_loop :=
  (loop to_bytes from_bytes message_type block_height gossipsub_publish
        poll_next_event handle_other_event).

(** ** The inbound handler, variant by variant *)

Lemma event_tx_send_once (ev : NetworkEvent) (self : NetworkNode) :
  event_tx_send ev self
  = (send_result (event_tx self) ev,
     with_event_tx self (deliver [ev] (event_tx self)),
     [Sent ev (send_result (event_tx self) ev)]).
Proof.
  unfold event_tx_send, channel_send, deliver, send_result.
  destruct (receiver_alive (event_tx self)) eqn:Ha; [reflexivity|].
  now rewrite with_event_tx_same.
Qed.

Lemma gossip_unfold (peer : PeerId) (message_id : MessageId) (data : Bytes)
    (self : NetworkNode) :
  on_event (GossipsubMessage peer message_id data) self
  = match from_bytes data with
    | Ok msg =>
        (tt,
         with_event_tx self (deliver (events_for peer msg) (event_tx self)),
         Logged INFO (ReceivedFrom (message_type msg) peer)
         :: message_trace (event_tx self) peer msg)
    | Err e => (tt, self, [Logged WARN (FailedToDeserialize peer e)])
    end.
Proof.
  cbn [handle_swarm_event].
  destruct (from_bytes data) as [msg|e]; [|reflexivity].
  destruct msg; unfold bind at 1, info at 1;
    try (unfold bind at 1; rewrite event_tx_send_once; reflexivity).
  - rewrite for_each_block_sends. unfold message_trace.
    cbn [inert_line events_for]. rewrite map_map. reflexivity.
  - cbn. now rewrite deliver_nil, with_event_tx_same.
  - cbn. now rewrite deliver_nil, with_event_tx_same.
  - cbn. now rewrite deliver_nil, with_event_tx_same.
Qed.

Lemma events_of_sent (ch : EventChannel) (evs : list NetworkEvent) :
  events_of (map (fun ev => Sent ev (send_result ch ev)) evs) = evs.
Proof.
  induction evs as [|ev evs IH]; [reflexivity|].
  unfold events_of in *. cbn [map filter_map sent_event]. now rewrite IH.
Qed.

Lemma publishes_of_sent (ch : EventChannel) (evs : list NetworkEvent) :
  publishes_of (map (fun ev => Sent ev (send_result ch ev)) evs) = [].
Proof.
  induction evs as [|ev evs IH]; [reflexivity|].
  unfold publishes_of in *. cbn [map filter_map published]. exact IH.
Qed.

Lemma events_of_message_trace (ch : EventChannel) (peer : PeerId)
    (msg : Message) :
  events_of (message_trace ch peer msg) = events_for peer msg.
Proof.
  unfold message_trace.
  destruct msg; cbn [inert_line]; try apply events_of_sent; reflexivity.
Qed.

Lemma publishes_of_message_trace (ch : EventChannel) (peer : PeerId)
    (msg : Message) :
  publishes_of (message_trace ch peer msg) = [].
Proof.
  unfold message_trace.
  destruct msg; cbn [inert_line]; try apply publishes_of_sent; reflexivity.
Qed.

Lemma events_for_peer (peer : PeerId) (msg : Message) (ev : NetworkEvent) :
  In ev (events_for peer msg) -> event_peer ev = peer.
Proof.
  destruct msg; cbn [events_for]; intros Hin;
    try (destruct Hin as [<-|[]]; reflexivity); try destruct Hin.
  apply in_map_iff in Hin. destruct Hin as (b & <- & _). reflexivity.
Qed.

(** X1.  The events that the handler sends for an inbound gossip message are
    a function of the decoded message and of its source alone: one event for
    [NewBlock], [NewTransaction], [Status] (without the fields behind [..])
    and [GetBlocks], one per block for [Blocks], none for the three inert
    variants, and none for a payload that does not decode. *)
Theorem gossip_events (peer : PeerId) (message_id : MessageId) (data : Bytes)
    (self : NetworkNode) :
  events_of (trace_of (on_event (GossipsubMessage peer message_id data) self))
  = match from_bytes data with
    | Ok (NewBlock block) => [BlockReceived peer block]
    | Ok (NewTransaction transaction) => [TransactionReceived peer transaction]
    | Ok (Status height best_block_hash _) =>
        [StatusReceived peer height best_block_hash]
    | Ok (GetBlocks start_height count) =>
        [BlocksRequested peer start_height count]
    | Ok (Blocks blocks) => map (BlockReceived peer) blocks
    | Ok GetStatus | Ok (Ping _) | Ok (Pong _) => []
    | Err _ => []
    end.
Proof.
  rewrite gossip_unfold.
  destruct (from_bytes data) as [msg|e]; [|reflexivity].
  unfold trace_of. cbn [snd].
  change (events_of (Logged INFO ?m :: ?t)) with (events_of t).
  rewrite events_of_message_trace. destruct msg; reflexivity.
Qed.

(** X2.  Every event that the handler sends for an inbound gossip message is
    attributed to the peer the message was received from, whatever the
    payload. *)
Theorem gossip_events_carry_source (peer : PeerId) (message_id : MessageId)
    (data : Bytes) (self : NetworkNode) (ev : NetworkEvent) :
  In ev (events_of
           (trace_of (on_event (GossipsubMessage peer message_id data) self))) ->
  event_peer ev = peer.
Proof.
  rewrite gossip_unfold.
  destruct (from_bytes data) as [msg|e]; [|intros []].
  unfold trace_of. cbn [snd].
  change (events_of (Logged INFO ?m :: ?t)) with (events_of t).
  rewrite events_of_message_trace. apply events_for_peer.
Qed.

(** X3.  Handling an inbound gossip message touches nothing of the actor but
    the event channel: the swarm, the peer table and the two topics are as
    before, nothing is published, and the channel is the old one after the
    events of the trace have been sent on it in order (appended for a live
    receiver, lost for a dropped one). *)
Theorem gossip_only_feeds_event_channel (peer : PeerId)
    (message_id : MessageId) (data : Bytes) (self : NetworkNode) :
  let r := on_event (GossipsubMessage peer message_id data) self in
  swarm (node_of r) = swarm self
  /\ peers (node_of r) = peers self
  /\ blocks_topic (node_of r) = blocks_topic self
  /\ transactions_topic (node_of r) = transactions_topic self
  /\ publishes_of (trace_of r) = []
  /\ event_tx (node_of r) = deliver (events_of (trace_of r)) (event_tx self).
Proof.
  intros r. subst r. rewrite gossip_unfold.
  destruct (from_bytes data) as [msg|e].
  - unfold trace_of, node_of. cbn [fst snd].
    change (events_of (Logged INFO ?m :: ?t)) with (events_of t).
    change (publishes_of (Logged INFO ?m :: ?t)) with (publishes_of t).
    rewrite events_of_message_trace, publishes_of_message_trace.
    repeat split.
  - unfold trace_of, node_of. cbn. rewrite deliver_nil. repeat split.
Qed.

Lemma send_failed_sent (ch : EventChannel) (evs : list NetworkEvent) :
  receiver_alive ch = false ->
  forallb send_failed (map (fun ev => Sent ev (send_result ch ev)) evs) = true.
Proof.
  intros Ha. induction evs as [|ev evs IH]; [reflexivity|].
  cbn [map forallb]. unfold send_result at 1. rewrite Ha. exact IH.
Qed.

(** X4.  Once the receiver of the event channel has been dropped, handling an
    inbound gossip message leaves the actor exactly as it was; the handler
    still makes every send (the same events as for a live receiver) and each
    of them fails, without stopping the handler. *)
Theorem gossip_with_receiver_dropped (peer : PeerId) (message_id : MessageId)
    (data : Bytes) (self : NetworkNode) :
  receiver_alive (event_tx self) = false ->
  let r := on_event (GossipsubMessage peer message_id data) self in
  node_of r = self
  /\ forallb send_failed (trace_of r) = true
  /\ (forall ch : EventChannel,
        events_of
          (trace_of (on_event (GossipsubMessage peer message_id data)
                              (with_event_tx self ch)))
        = events_of (trace_of r)).
Proof.
  intros Ha r. subst r. split; [|split].
  - rewrite gossip_unfold. destruct (from_bytes data) as [msg|e];
      [|reflexivity].
    unfold node_of. cbn [fst snd]. unfold deliver. rewrite Ha.
    apply with_event_tx_same.
  - rewrite gossip_unfold. destruct (from_bytes data) as [msg|e];
      [|reflexivity].
    unfold trace_of. cbn [snd forallb send_failed andb].
    unfold message_trace. destruct (inert_line peer msg); [reflexivity|].
    now apply send_failed_sent.
  - intros ch. rewrite !gossip_unfold.
    destruct (from_bytes data) as [msg|e]; [|reflexivity].
    unfold trace_of. cbn [snd].
    change (events_of (Logged INFO ?m :: ?t)) with (events_of t).
    now rewrite !events_of_message_trace.
Qed.

(** X5.  What the patch of [update_message_handling.py] changes.  On a
    payload that does not decode the two handlers do the same: one warning, no
    event.  On a payload that decodes both write the same first log line; the
    old handler then sends the one event [MessageReceived], for every variant,
    and the new handler sends the converted events of that message instead. *)
Theorem patch_converts_message_received (peer : PeerId)
    (message_id : MessageId) (data : Bytes) (old_tx : OldEventChannel)
    (self : NetworkNode) :
  let old := old_handling from_bytes message_type peer message_id data old_tx in
  let new := on_event (GossipsubMessage peer message_id data) self in
  match from_bytes data with
  | Ok msg =>
      old_events_of (snd old) = [MessageReceived peer msg]
      /\ events_of (trace_of new) = events_for peer msg
      /\ hd_error (snd old)
         = Some (OldLogged INFO (ReceivedFrom (message_type msg) peer))
      /\ hd_error (trace_of new)
         = Some (Logged INFO (ReceivedFrom (message_type msg) peer))
  | Err e =>
      snd old = [OldLogged WARN (FailedToDeserialize peer e)]
      /\ fst old = old_tx
      /\ trace_of new = [Logged WARN (FailedToDeserialize peer e)]
      /\ node_of new = self
  end.
Proof.
  intros old new. subst old new. unfold old_handling. rewrite gossip_unfold.
  destruct (from_bytes data) as [msg|e].
  - destruct (old_channel_send (MessageReceived peer msg) old_tx) as [r ch].
    unfold trace_of. cbn [snd hd_error].
    change (events_of (Logged INFO ?m :: ?t)) with (events_of t).
    rewrite events_of_message_trace. repeat split.
  - repeat split.
Qed.

(** ** Commands *)

(** X6.  Handling a command touches nothing of the actor but the swarm: the
    peer table, the event channel and the two topics are as before, no event
    is sent, and at most one publish is made. *)
Theorem command_only_uses_swarm (command : NetworkCommand)
    (self : NetworkNode) :
  let r := on_command command self in
  peers (node_of r) = peers self
  /\ event_tx (node_of r) = event_tx self
  /\ blocks_topic (node_of r) = blocks_topic self
  /\ transactions_topic (node_of r) = transactions_topic self
  /\ events_of (trace_of r) = []
  /\ List.length (publishes_of (trace_of r)) <= 1.
Proof.
  intros r. subst r.
  rewrite (events_of_command to_bytes block_height gossipsub_publish).
  rewrite (publishes_of_command to_bytes block_height gossipsub_publish).
  rewrite (handle_command_unfold to_bytes block_height gossipsub_publish).
  destruct (to_bytes (command_message command)) as [data|err].
  - cbv zeta.
    destruct (gossipsub_publish (swarm self) (command_topic command self) data)
      as [res sw].
    unfold node_of. cbn. repeat split; auto.
  - unfold node_of. cbn. repeat split; auto.
Qed.

(** X7.  Routing.  Whatever a command publishes is the encoding of its own
    message, on the transactions topic for [BroadcastTransaction] and on the
    blocks topic for the three other commands. *)
Theorem command_routing (command : NetworkCommand) (self : NetworkNode)
    (topic : Topic) (data : Bytes) (r : Result MessageId PublishError) :
  In (topic, data, r) (publishes_of (trace_of (on_command command self))) ->
  topic = match command with
          | BroadcastTransaction _ => transactions_topic self
          | _ => blocks_topic self
          end
  /\ to_bytes (command_message command) = Ok data
  /\ r = fst (gossipsub_publish (swarm self) topic data).
Proof.
  rewrite (publishes_of_command to_bytes block_height gossipsub_publish).
  destruct (to_bytes (command_message command)) as [d|err]; [|intros []].
  intros [Heq|[]]. inversion Heq; subst.
  destruct command; repeat split.
Qed.

(** X8.  From one node to another.  With a codec that decodes what it
    encodes, the payload that [BroadcastBlock], [BroadcastTransaction] or
    [RequestBlocks] publishes at one node becomes, at any node that receives
    it, exactly one event: the block, the transaction or the request of the
    command, attributed to the peer the payload came from. *)
Theorem command_reaches_peer (names : list string)
    (rest_of : list (string * FieldVal) -> option StatusRest)
    (command : NetworkCommand) (sender receiver : NetworkNode)
    (source : PeerId) (message_id : MessageId) (topic : Topic) (data : Bytes)
    (r : Result MessageId PublishError) (ev : NetworkEvent) :
  (forall lit msg bytes,
     elaborate names rest_of lit = Some msg ->
     to_bytes lit = Ok bytes -> from_bytes bytes = Ok msg) ->
  command_event source command = Some ev ->
  In (topic, data, r) (publishes_of (trace_of (on_command command sender))) ->
  events_of
    (trace_of (on_event (GossipsubMessage source message_id data) receiver))
  = [ev].
Proof.
  intros Hcodec Hev Hin.
  rewrite (publishes_of_command to_bytes block_height gossipsub_publish) in Hin.
  destruct (to_bytes (command_message command)) as [d|err] eqn:Henc;
    [|destruct Hin].
  destruct Hin as [Heq|[]]. inversion Heq; subst d; clear Heq.
  rewrite gossip_unfold. unfold trace_of.
  destruct command; cbn [command_event] in Hev; inversion Hev; subst ev.
  - rewrite (Hcodec (command_message (BroadcastBlock block))
                      (NewBlock block) _ eq_refl Henc).
    reflexivity.
  - rewrite (Hcodec (command_message (BroadcastTransaction tx))
                      (NewTransaction tx) _ eq_refl Henc).
    reflexivity.
  - rewrite (Hcodec (command_message (RequestBlocks peer_id start_height count))
                      (GetBlocks start_height count) _ eq_refl Henc).
    reflexivity.
Qed.

(** X9.  When the publish of a command succeeds, the handler's whole trace
    is that one publish, followed for [BroadcastBlock] by one information line
    with the height of the block; the three other commands succeed without a
    log line. *)
Theorem command_success_trace (command : NetworkCommand) (self : NetworkNode)
    (topic : Topic) (data : Bytes) (id : MessageId) :
  In (topic, data, Ok id) (publishes_of (trace_of (on_command command self))) ->
  trace_of (on_command command self)
  = Published topic data (Ok id)
    :: match command with
       | BroadcastBlock block =>
           [Logged INFO (BroadcastedBlock (block_height block))]
       | _ => []
       end.
Proof.
  rewrite (publishes_of_command to_bytes block_height gossipsub_publish).
  rewrite (handle_command_unfold to_bytes block_height gossipsub_publish).
  destruct (to_bytes (command_message command)) as [d|err]; [|intros []].
  cbv zeta.
  destruct (gossipsub_publish (swarm self) (command_topic command self) d)
    as [res sw].
  cbn [fst]. intros [Heq|[]]. inversion Heq; subst.
  destruct command; reflexivity.
Qed.

(** ** The loop *)

(** X10.  A pass of the loop parks only when there is nothing to do: the
    command queue is empty and no transport event is ready.  Whichever branch
    the macro polls first, a queued command or a ready event is taken. *)
Theorem select_parks_iff_idle (first : bool) (rx : CommandRx) (sw : Swarm) :
  select poll_next_event first rx sw = Parked
  <-> queued rx = [] /\ poll_next_event sw = None.
Proof.
  unfold select, command_branch, poll_recv, event_branch.
  destruct (queued rx) as [|c rest];
    destruct (poll_next_event sw) as [[e sw']|];
    try destruct (Nat.eqb (senders rx) 0); try destruct first;
    split; try discriminate; try (intros [H1 H2]; discriminate); auto.
Qed.

(** X11.  A pass of the loop takes at most one command, the oldest one, and
    leaves the rest of the queue in order; it never adds a command and never
    changes the number of senders. *)
Theorem pass_keeps_queue_order (first : bool) (w : World) :
  exists w' t,
    pass first w = Looping w' t
    /\ senders (command_rx w') = senders (command_rx w)
    /\ (queued (command_rx w') = queued (command_rx w)
        \/ exists c, queued (command_rx w) = c :: queued (command_rx w')).
Proof.
  unfold iteration.
  destruct (select poll_next_event first (command_rx w) (swarm (node w)))
    as [c rx'|e sw'| |] eqn:Hsel.
  - destruct (on_command c (node w)) as [[u self'] t].
    destruct (select_took_command _ _ _ _ Hsel) as [Hq Hs].
    do 2 eexists. split; [reflexivity|]. cbn [command_rx]. eauto.
  - destruct (on_event e (with_swarm (node w) sw')) as [[u self'] t].
    do 2 eexists. split; [reflexivity|]. cbn [command_rx]. auto.
  - do 2 eexists. split; [reflexivity|]. auto.
  - exfalso. revert Hsel. unfold select, event_branch.
    destruct (command_branch (command_rx w)) as [[c rx']| |];
      destruct (poll_next_event (swarm (node w))) as [[e sw']|];
      try destruct first; discriminate.
Qed.

(** X12.  Queued commands are handled in the order of the queue, each one to
    completion before the next: passes that poll the command branch first
    turn a queue [cs ++ rest] into [rest] and do exactly what handling the
    commands of [cs] one after the other does, even when every sender has
    already been dropped. *)
Theorem loop_drains_in_order (cs rest : list NetworkCommand) (n : nat) :
  forall self : NetworkNode,
    the_loop (map (fun _ => command_first_tick) cs)
             {| node := self;
                command_rx := {| queued := cs ++ rest; senders := n |} |}
    = Looping
        {| node := node_of (for_each cs on_command self);
           command_rx := {| queued := rest; senders := n |} |}
        (trace_of (for_each cs on_command self)).
Proof.
  induction cs as [|c cs IH]; intros self; [reflexivity|].
  cbn [map loop app for_each command_first_tick before commands_first env_step].
  unfold iteration at 1. cbn [node command_rx].
  assert (Hsel : select poll_next_event true
                   {| queued := c :: cs ++ rest; senders := n |} (swarm self)
                 = TookCommand c {| queued := cs ++ rest; senders := n |}).
  { unfold select, command_branch, poll_recv, event_branch. cbn [queued senders].
    destruct (poll_next_event (swarm self)) as [[e sw']|]; reflexivity. }
  rewrite Hsel. unfold bind.
  destruct (on_command c self) as [[u self1] t1].
  rewrite IH.
  destruct (for_each cs on_command self1) as [[u2 self2] t2].
  reflexivity.
Qed.



End MoreProperties.

(** * Properties of the line filter *)

Lemma fix_step_condition (pre : list Str) (line : Str) (rest : list Str) :
  (Nat.ltb (List.length pre) (List.length (pre ++ line :: rest) - 1)
   && str_eqb (strip line) comma
   && contains NewListenAddr (nth (List.length pre + 1) (pre ++ line :: rest) []))
  = starts_fragment line rest.
Proof.
  rewrite app_nth2 by lia.
  replace (List.length pre + 1 - List.length pre) with 1 by lia.
  rewrite length_app. cbn [List.length nth].
  destruct rest as [|next rest]; cbn [starts_fragment List.length nth].
  - replace (Nat.ltb _ _) with false; [reflexivity|].
    symmetry. apply Nat.ltb_ge. lia.
  - replace (Nat.ltb _ _) with true; [reflexivity|].
    symmetry. apply Nat.ltb_lt. lia.
Qed.

Lemma fold_fix_step (suf : list Str) :
  forall (pre : list Str) (skip_next : nat) (acc : list Str),
    snd (fold_left (fix_step (pre ++ suf))
                   (combine (seq (List.length pre) (List.length suf)) suf)
                   (skip_next, acc))
    = acc ++ clean skip_next suf.
Proof.
  induction suf as [|line rest IH]; intros pre skip_next acc.
  - cbn. now rewrite app_nil_r.
  - cbn [List.length seq combine fold_left clean].
    unfold fix_step at 2. rewrite fix_step_condition.
    pose proof (IH (pre ++ [line])) as IH'.
    rewrite <- app_assoc, length_app in IH'. cbn [app List.length] in IH'.
    replace (List.length pre + 1) with (S (List.length pre)) in IH' by lia.
    destruct (starts_fragment line rest).
    + apply IH'.
    + destruct (Nat.ltb 0 skip_next).
      * apply IH'.
      * rewrite IH'. now rewrite <- app_assoc.
Qed.

Lemma fix_network_syntax_clean (lines : list Str) :
  fix_network_syntax lines = clean 0 lines.
Proof.
  unfold fix_network_syntax, enumerate.
  exact (fold_fix_step lines [] 0 []).
Qed.

Lemma clean_subseq (lines : list Str) :
  forall skip_next : nat, Subseq (clean skip_next lines) lines.
Proof.
  induction lines as [|line rest IH]; intros skip_next; cbn [clean].
  - constructor.
  - destruct (starts_fragment line rest); [constructor; apply IH|].
    destruct (Nat.ltb 0 skip_next); constructor; apply IH.
Qed.

Lemma subseq_length {A} (a b : list A) :
  Subseq a b -> List.length a <= List.length b.
Proof. induction 1; cbn [List.length]; lia. Qed.

Lemma subseq_in {A} (a b : list A) (x : A) : Subseq a b -> In x a -> In x b.
Proof.
  induction 1; intros Hin; cbn [In] in *; auto.
  destruct Hin; auto.
Qed.

(** X14.  The filter only removes lines: what it writes is what it read with
    some lines left out, in the same order; no line is added, changed or
    moved. *)
Theorem fix_network_syntax_only_removes (lines : list Str) :
  Subseq (fix_network_syntax lines) lines
  /\ List.length (fix_network_syntax lines) <= List.length lines
  /\ (forall line, In line (fix_network_syntax lines) -> In line lines).
Proof.
  rewrite fix_network_syntax_clean.
  pose proof (clean_subseq lines 0) as H.
  split; [exact H|]. split.
  - now apply subseq_length.
  - intros line. now apply subseq_in.
Qed.

Lemma starts_fragment_no_comma (line : Str) (rest : list Str) :
  str_eqb (strip line) comma = false -> starts_fragment line rest = false.
Proof. intros H. destruct rest; cbn [starts_fragment]; [|rewrite H]; auto. Qed.




Lemma clean_app_without_comma (pre : list Str) :
  (forall line, In line pre -> str_eqb (strip line) comma = false) ->
  forall rest : list Str, clean 0 (pre ++ rest) = pre ++ clean 0 rest.
Proof.
  induction pre as [|line pre IH]; intros H rest; [reflexivity|].
  cbn [app clean].
  rewrite starts_fragment_no_comma by (apply H; now left).
  cbn [Nat.ltb Nat.leb]. f_equal. apply IH. intros l Hl. apply H. now right.
Qed.

(** X16.  The fragment goes, and nothing else.  When a line that strips to a
    comma is followed by a line that mentions [NewListenAddr], the filter
    drops that line and the three lines after it; with no comma line before
    the fragment or among those three, the lines before it are kept as they
    are and the lines after it are filtered as a file of their own. *)
Theorem fix_network_syntax_removes_fragment (pre post : list Str)
    (c n a b : Str) :
  (forall line, In line pre -> str_eqb (strip line) comma = false) ->
  str_eqb (strip c) comma = true ->
  contains NewListenAddr n = true ->
  str_eqb (strip n) comma = false ->
  str_eqb (strip a) comma = false ->
  str_eqb (strip b) comma = false ->
  fix_network_syntax (pre ++ c :: n :: a :: b :: post)
  = pre ++ fix_network_syntax post.
Proof.
  intros Hpre Hc Hn Hn' Ha Hb.
  rewrite !fix_network_syntax_clean, clean_app_without_comma by exact Hpre.
  f_equal. cbn [clean starts_fragment]. rewrite Hc, Hn. cbn [andb].
  rewrite Hn'. cbn [andb Nat.ltb Nat.leb Nat.sub].
  rewrite Ha. cbn [andb Nat.ltb Nat.leb Nat.sub].
  rewrite (starts_fragment_no_comma b post Hb). reflexivity.
Qed.

(** * The further properties on the small instance *)

(** The codec of the instance decodes what it encodes. *)
Lemma sample_decode_encode (m : @Message sample_types) :
  sample_decode (sample_encode m) = Ok m.
Proof.
  destruct m as [b|t|h bh []|s c|blocks| |n|n]; try reflexivity.
  unfold sample_decode, sample_encode, decode, encode.
  change (Byte.eqb x04 x00) with false. change (Byte.eqb x04 x01) with false.
  change (Byte.eqb x04 x02) with false. change (Byte.eqb x04 x03) with false.
  change (Byte.eqb x04 x04) with true. cbv iota.
  rewrite <- (app_nil_r (put_seq (W := byte_wire) blocks)) at 2.
  rewrite (get_seq_put_seq (L := byte_wire_law)); [reflexivity|].
  pose proof (put_seq_longer (W := byte_wire) blocks []) as H.
  rewrite app_nil_r in H. exact (Nat.lt_lt_succ_r _ _ H).
Qed.

Lemma sample_codec_agrees (lit : @MessageLit sample_types)
    (msg : @Message sample_types) (bytes : Bytes) :
  elaborate (T := sample_types) [] sample_rest_of lit = Some msg ->
  sample_to_bytes lit = Ok bytes ->
  sample_decode bytes = Ok msg.
Proof.
  unfold sample_to_bytes. intros -> Henc. inversion Henc.
  apply sample_decode_encode.
Qed.

(** A new block from peer [2a] is attributed to peer [2a]. *)
Lemma gossip_events_carry_source_witness :
  In (BlockReceived (T := sample_types) x2a x0a)
     (events_of
        (trace_of
           (sample_handle_swarm_event
              (GossipsubMessage (T := sample_types) x2a tt [x00; x0a])
              (sample_node [] true))))
  /\ event_peer (BlockReceived (T := sample_types) x2a x0a) = x2a.
Proof.
  split; [left; reflexivity|].
  exact (@gossip_events_carry_source sample_types sample_decode variant_name
           sample_other x2a tt [x00; x0a] (sample_node [] true)
           (BlockReceived (T := sample_types) x2a x0a) (or_introl eq_refl)).
Defined.

(** Three blocks for a node whose event receiver is gone: the node is as it
    was. *)
Lemma gossip_with_receiver_dropped_witness :
  receiver_alive (event_tx (sample_node [] false)) = false
  /\ node_of
       (sample_handle_swarm_event
          (GossipsubMessage (T := sample_types) x2a tt
             [x04; x01; x0a; x01; x0b; x01; x0c; x00])
          (sample_node [] false))
     = sample_node [] false.
Proof.
  split; [reflexivity|].
  exact (proj1 (@gossip_with_receiver_dropped sample_types sample_decode
                  variant_name sample_other x2a tt
                  [x04; x01; x0a; x01; x0b; x01; x0c; x00]
                  (sample_node [] false) eq_refl)).
Defined.

(** A transaction goes out on the transactions topic. *)
Lemma command_routing_witness :
  In ("transactions", [x01; x07], Ok tt)
     (publishes_of
        (trace_of
           (sample_handle_command
              (BroadcastTransaction (T := sample_types) x07)
              (sample_node [] true))))
  /\ "transactions" = transactions_topic (sample_node [] true).
Proof.
  split; [left; reflexivity|].
  exact (proj1 (@command_routing sample_types sample_to_bytes
                  (fun b : byte => b) sample_publish
                  (BroadcastTransaction (T := sample_types) x07)
                  (sample_node [] true) "transactions" [x01; x07] (Ok tt)
                  (or_introl eq_refl))).
Defined.

(** A request for ten blocks from height one hundred, published by one node,
    is the same request at the node that receives it from peer [2a]. *)
Lemma command_reaches_peer_witness :
  (forall lit msg bytes,
     elaborate (T := sample_types) [] sample_rest_of lit = Some msg ->
     sample_to_bytes lit = Ok bytes -> sample_decode bytes = Ok msg)
  /\ command_event (T := sample_types) x2a
       (RequestBlocks (T := sample_types) x11 x64 x0a)
     = Some (BlocksRequested (T := sample_types) x2a x64 x0a)
  /\ In ("blocks", [x03; x64; x0a], Ok tt)
        (publishes_of
           (trace_of
              (sample_handle_command
                 (RequestBlocks (T := sample_types) x11 x64 x0a)
                 (sample_node [] true))))
  /\ events_of
       (trace_of
          (sample_handle_swarm_event
             (GossipsubMessage (T := sample_types) x2a tt [x03; x64; x0a])
             (sample_node [] true)))
     = [BlocksRequested (T := sample_types) x2a x64 x0a].
Proof.
  split; [exact sample_codec_agrees|].
  split; [reflexivity|]. split; [left; reflexivity|].
  exact (@command_reaches_peer sample_types sample_to_bytes sample_decode
           variant_name (fun b : byte => b) sample_publish sample_other
           [] sample_rest_of
           (RequestBlocks (T := sample_types) x11 x64 x0a)
           (sample_node [] true) (sample_node [] true) x2a tt
           "blocks" [x03; x64; x0a] (Ok tt)
           (BlocksRequested (T := sample_types) x2a x64 x0a)
           sample_codec_agrees eq_refl (or_introl eq_refl)).
Defined.


(** The four lines of the fragment go; the enum and the function stay. *)
Lemma fix_network_syntax_removes_fragment_witness :
  (forall line, In line sample_before -> str_eqb (strip line) comma = false)
  /\ str_eqb (strip (text_line "    ,")) comma = true
  /\ contains NewListenAddr (text_line "    /// NewListenAddr event") = true
  /\ str_eqb (strip (text_line "    /// NewListenAddr event")) comma = false
  /\ str_eqb (strip (text_line "    NewListenAddr(Multiaddr),")) comma = false
  /\ str_eqb (strip (text_line "}")) comma = false
  /\ fix_network_syntax
       (sample_before
        ++ text_line "    ,"
        :: text_line "    /// NewListenAddr event"
        :: text_line "    NewListenAddr(Multiaddr),"
        :: text_line "}"
        :: sample_after)
     = sample_before ++ fix_network_syntax sample_after.
Proof.
  assert (H : forall line, In line sample_before ->
                           str_eqb (strip line) comma = false).
  { intros line [<-|[<-|[]]]; reflexivity. }
  split; [exact H|]. repeat (split; [reflexivity|]).
  exact (fix_network_syntax_removes_fragment sample_before sample_after
           (text_line "    ,") (text_line "    /// NewListenAddr event")
           (text_line "    NewListenAddr(Multiaddr),") (text_line "}")
           H eq_refl eq_refl eq_refl eq_refl eq_refl).
Defined.

(** A block broadcast that succeeds is logged with the height of the block. *)
Lemma command_success_trace_witness :
  In ("blocks", [x00; x09], Ok tt)
     (publishes_of
        (trace_of
           (sample_handle_command (BroadcastBlock (T := sample_types) x09)
                                  (sample_node [] true))))
  /\ trace_of
       (sample_handle_command (BroadcastBlock (T := sample_types) x09)
                              (sample_node [] true))
     = [Published (T := sample_types) "blocks" [x00; x09] (Ok tt);
        Logged (T := sample_types) INFO
               (BroadcastedBlock (T := sample_types) x09)].
Proof.
  split; [left; reflexivity|].
  exact (@command_success_trace sample_types sample_to_bytes
           (fun b : byte => b) sample_publish
           (BroadcastBlock (T := sample_types) x09) (sample_node [] true)
           "blocks" [x00; x09] tt (or_introl eq_refl)).
Defined.
